(** * The single-flight, deadline-bounded, TTL-cached snapshot service

    Shallow embedding of [bot/features/role_members.py] and
    [bot/features/subscriptions.py].  Both modules are one pattern
    (a TTL cache in front of a per-key [asyncio.Lock] in front of a member
    scan wrapped in [asyncio.wait_for]); they differ in the key shape, in the
    body of the scan loop and in the payload that is assembled.  The pattern
    is embedded once, over a [Feature], and instantiated twice.

    Scheduling model.  The handlers are [asyncio] coroutines: code between
    two suspending [await]s runs atomically.  The only suspending [await] of
    a handler is [asyncio.wait_for(_scan(), ...)] ([asyncio.Lock.acquire]
    does not suspend when the lock is free).  A handler is therefore cut into
    atomic segments, and the event loop is a transition system whose events
    are: a request arrives, the member iterator yields, the iterator is
    exhausted, the expired [wait_for] timer is served, the scan raises, time
    passes.

    Clocks.  [time.time()] values are rationals (seconds); the subtraction
    [time.time() - entry.ts] of two doubles of the same binade is exact, so
    exact arithmetic is what the comparison computes.  Every reading of
    [time.time()] is an input of the event that makes it.  The timer of
    [wait_for] runs on the loop clock [loop_time], which is monotonic; the
    loop serves an expired timer when it gets to it, at the expiry or
    later. *)

From Stdlib Require Import ZArith QArith Lqa String List Ascii.
From stdpp Require Import base option gmap list strings pretty.

Close Scope Q_scope.
Set Default Proof Using "Type".

(** ** Rational comparisons as booleans *)

Definition Qltb (x y : Q) : bool := negb (Qle_bool y x).

(** ** The objects of discord.py that the features read *)

Module Role.
Record t := { id : Z; name : string }.
End Role.

Module DateTime.
(** Only [isoformat()] is ever observed of a [datetime]. *)
Record t := { isoformat : string }.
End DateTime.

Module Member.
Record t := {
  id : Z;
  name : string;
  display_name : string;
  roles : list Role.t;
  premium_since : option DateTime.t
}.
End Member.

Module Guild.
Record t := {
  id : Z;
  name : string;
  get_role : Z -> option Role.t
}.
End Guild.

(** [bot.get_guild]: the gateway cache of the bot, as seen by one call. *)
Definition Bot := Z -> option Guild.t.

(** ** JSON values: payloads and error bodies *)

#[local] Unset Elimination Schemes.
Inductive Json :=
| JStr (s : string)
| JInt (n : Z)
| JList (l : list Json)
| JDict (items : list (string * Json)).
#[local] Set Elimination Schemes.

(** [d[key]] on a dict literal. *)
Fixpoint dict_get (key : string) (items : list (string * Json)) : option Json :=
  match items with
  | [] => None
  | (k, v) :: rest => if String.eqb k key then Some v else dict_get key rest
  end.

Definition field (key : string) (j : Json) : option Json :=
  match j with
  | JDict items => dict_get key items
  | _ => None
  end.

(** What aiohttp sends back: [web.json_response] (200) or one of the raised
    [web.HTTPException]s, each with its JSON body; an exception of the scan
    that is not a timeout becomes a 500. *)
Inductive Response :=
| json_response (payload : Json)
| HTTPAccepted (text : Json)
| HTTPNotFound (text : Json)
| HTTPInternalServerError.

Definition guild_not_found : Json :=
  JDict [("error", JStr "guild_not_found_or_no_access")].

Record CacheEntry := { ts : Q; payload : Json }.

(** ** What distinguishes the two features *)

Class Feature := {
  Key : Type;
  Key_eq_dec :: EqDecision Key;
  Key_countable :: Countable Key;
  (** the element type of the list the scan accumulates *)
  Item : Type;
  (** the [guild_id] given to [bot.get_guild] *)
  guild_id_of : Key -> Z;
  (** the body of the [async for] loop of [_scan] *)
  scan_body : Key -> Member.t -> list Item -> list Item;
  (** the payload assembled by [_build_payload] after the scan *)
  make_payload : Key -> Guild.t -> list Item -> Json;
  (** the body of the 202 answer *)
  building_cache : Key -> Json
}.

(** *** [RoleMembersFeature] *)

Module RoleMembers.

(** [cache_key = (guild_id, role_id)] *)
Definition CacheKey : Type := Z * Z.

(** [if any(r.id == role_id for r in member.roles):
       member_ids.append(str(member.id))] *)
Definition _scan (cache_key : CacheKey) (member : Member.t)
    (member_ids : list string) : list string :=
  let role_id := snd cache_key in
  if existsb (fun r => Z.eqb (Role.id r) role_id) (Member.roles member)
  then member_ids ++ [pretty (Member.id member)]
  else member_ids.

Definition role_name_of (guild : Guild.t) (role_id : Z) : string :=
  match Guild.get_role guild role_id with
  | Some role => Role.name role
  | None => "unknown"
  end.

Definition _payload (cache_key : CacheKey) (guild : Guild.t)
    (member_ids : list string) : Json :=
  let role_id := snd cache_key in
  JDict [
    ("guild_id", JStr (pretty (Guild.id guild)));
    ("guild_name", JStr (Guild.name guild));
    ("role_id", JStr (pretty role_id));
    ("role_name", JStr (role_name_of guild role_id));
    ("count", JInt (Z.of_nat (length member_ids)));
    ("members",
     JList (map (fun mid => JDict [("discord_user_id", JStr mid)]) member_ids))
  ].

Definition _building_cache (cache_key : CacheKey) : Json :=
  JDict [
    ("status", JStr "building_cache");
    ("guild_id", JStr (pretty (fst cache_key)));
    ("role_id", JStr (pretty (snd cache_key)))
  ].

(** The ids [_scan] collects from [ms]: the members that have the role, in
    the order of arrival. *)
Definition matches (role_id : Z) (ms : list Member.t) : list string :=
  map (fun m => pretty (Member.id m))
    (List.filter
       (fun m => existsb (fun r => Z.eqb (Role.id r) role_id) (Member.roles m))
       ms).

#[export] Instance feature : Feature := {|
  Key := CacheKey;
  Item := string;
  guild_id_of := fst;
  scan_body := _scan;
  make_payload := _payload;
  building_cache := _building_cache
|}.

End RoleMembers.

(** *** [SubscriptionFeature] *)

Module Subscriptions.

(** [if m.premium_since: boosters.append({...})] *)
Definition _scan (guild_id : Z) (m : Member.t) (boosters : list Json)
    : list Json :=
  match Member.premium_since m with
  | Some since =>
      boosters ++ [JDict [
        ("discord_user_id", JStr (pretty (Member.id m)));
        ("username", JStr (Member.name m));
        ("display_name", JStr (Member.display_name m));
        ("premium_since", JStr (DateTime.isoformat since))
      ]]
  | None => boosters
  end.

Definition _payload (guild_id : Z) (guild : Guild.t) (boosters : list Json)
    : Json :=
  JDict [
    ("guild_id", JStr (pretty (Guild.id guild)));
    ("guild_name", JStr (Guild.name guild));
    ("count", JInt (Z.of_nat (length boosters)));
    ("boosters", JList boosters)
  ].

Definition _building_cache (guild_id : Z) : Json :=
  JDict [
    ("status", JStr "building_cache");
    ("guild_id", JStr (pretty guild_id))
  ].

#[export] Instance feature : Feature := {|
  Key := Z;
  Item := Json;
  guild_id_of := fun guild_id => guild_id;
  scan_body := _scan;
  make_payload := _payload;
  building_cache := _building_cache
|}.

End Subscriptions.

(** ** The feature instance and the event loop around it *)

Section Service.
Context {F : Feature}.

(** What a run did to the locks, the builder and the store, in order.  The
    log is written and never read by the code: it is there for the
    statements. *)
Inductive Effect :=
| Acquire (k : Key)
| Release (k : Key)
| BuildPayload (k : Key)
| CachePut (k : Key).

#[export] Instance Effect_eq_dec : EqDecision Effect.
Proof. solve_decision. Defined.

(** A handler coroutine that is suspended at an [await]. *)
Inductive Task :=
| Scanning (k : Key) (guild : Guild.t) (acc : list Item) (started : Q)
    (** inside [await asyncio.wait_for(_scan(), timeout=...)], under
        [async with lock]; [acc] is the list [_scan] appends to, [started]
        the loop time at which the timer was armed *)
| Blocked (k : Key)
    (** inside [await lock.acquire()] on a held lock *).

(** [self] ([cache_seconds], [build_timeout_seconds], [_cache], [_locks];
    an [asyncio.Lock] is its [_locked] flag), the suspended handlers, the
    loop clock, and two ghost fields: the last [time.time()] reading that was
    handed out and the effect log. *)
Record State := {
  cache_seconds : Z;
  build_timeout_seconds : Z;
  _cache : gmap Key CacheEntry;
  _locks : gmap Key bool;
  tasks : gmap nat Task;
  next_task : nat;
  loop_time : Q;
  wall : Q;
  log : list Effect
}.

(** [__init__]: [max(10, int(cache_seconds))], [max(5, int(build_timeout_seconds))],
    two empty dicts.  The clocks start at their origin. *)
Definition __init__ (cache_seconds build_timeout_seconds : Z) : State := {|
  cache_seconds := Z.max 10 cache_seconds;
  build_timeout_seconds := Z.max 5 build_timeout_seconds;
  _cache := ∅;
  _locks := ∅;
  tasks := ∅;
  next_task := 0;
  loop_time := 0;
  wall := 0;
  log := []
|}.

Definition set_cache (c : gmap Key CacheEntry) (st : State) : State := {|
  cache_seconds := cache_seconds st;
  build_timeout_seconds := build_timeout_seconds st;
  _cache := c; _locks := _locks st; tasks := tasks st;
  next_task := next_task st; loop_time := loop_time st; wall := wall st;
  log := log st
|}.

Definition set_locks (l : gmap Key bool) (st : State) : State := {|
  cache_seconds := cache_seconds st;
  build_timeout_seconds := build_timeout_seconds st;
  _cache := _cache st; _locks := l; tasks := tasks st;
  next_task := next_task st; loop_time := loop_time st; wall := wall st;
  log := log st
|}.

Definition set_tasks (t : gmap nat Task) (st : State) : State := {|
  cache_seconds := cache_seconds st;
  build_timeout_seconds := build_timeout_seconds st;
  _cache := _cache st; _locks := _locks st; tasks := t;
  next_task := next_task st; loop_time := loop_time st; wall := wall st;
  log := log st
|}.

Definition set_next_task (n : nat) (st : State) : State := {|
  cache_seconds := cache_seconds st;
  build_timeout_seconds := build_timeout_seconds st;
  _cache := _cache st; _locks := _locks st; tasks := tasks st;
  next_task := n; loop_time := loop_time st; wall := wall st;
  log := log st
|}.

Definition set_loop_time (t : Q) (st : State) : State := {|
  cache_seconds := cache_seconds st;
  build_timeout_seconds := build_timeout_seconds st;
  _cache := _cache st; _locks := _locks st; tasks := tasks st;
  next_task := next_task st; loop_time := t; wall := wall st;
  log := log st
|}.

Definition set_wall (t : Q) (st : State) : State := {|
  cache_seconds := cache_seconds st;
  build_timeout_seconds := build_timeout_seconds st;
  _cache := _cache st; _locks := _locks st; tasks := tasks st;
  next_task := next_task st; loop_time := loop_time st; wall := t;
  log := log st
|}.

Definition emit (e : Effect) (st : State) : State := {|
  cache_seconds := cache_seconds st;
  build_timeout_seconds := build_timeout_seconds st;
  _cache := _cache st; _locks := _locks st; tasks := tasks st;
  next_task := next_task st; loop_time := loop_time st; wall := wall st;
  log := log st ++ [e]
|}.

(** *** The methods *)

(** [_get_lock] (role_members.py 51-56, subscriptions.py 50-55): the lock of
    the key, created unlocked on first use.  The lock object sits in [_locks]
    and is never replaced, so the flag in the table is the lock. *)
Definition _get_lock (k : Key) (st : State) : bool * State :=
  match _locks st !! k with
  | Some lock => (lock, st)
  | None => (false, set_locks (<[k := false]> (_locks st)) st)
  end.

(** [_cache_valid] (role_members.py 58-59, subscriptions.py 57-58), with the
    value [now] of [time.time()] that it reads. *)
Definition _cache_valid (st : State) (now : Q) (entry : CacheEntry) : bool :=
  Qltb (now - ts entry) (inject_Z (cache_seconds st)).

(** [entry and self._cache_valid(entry)]: the payload to serve, if any.  A
    [CacheEntry] is a dataclass without [__bool__] or [__len__], so [entry] is
    false only when it is [None]. *)
Definition cache_hit (st : State) (now : Q) (entry : option CacheEntry)
    : option Json :=
  match entry with
  | Some e => if _cache_valid st now e then Some (payload e) else None
  | None => None
  end.

(** [asyncio.Lock.acquire], as run by [__aenter__] of [async with lock]:
    takes a free lock without suspending; on a held lock the caller is
    suspended ([None]). *)
Definition acquire (k : Key) (st : State) : option State :=
  match _locks st !! k with
  | Some false => Some (emit (Acquire k) (set_locks (<[k := true]> (_locks st)) st))
  | _ => None
  end.

(** [asyncio.Lock.release], as run by [__aexit__] of [async with lock]. *)
Definition release (k : Key) (st : State) : State :=
  emit (Release k) (set_locks (<[k := false]> (_locks st)) st).

(** A handler suspends: its coroutine is parked in the loop. *)
Definition spawn (t : Task) (st : State) : State :=
  set_next_task (S (next_task st)) (set_tasks (<[next_task st := t]> (tasks st)) st).

(** A handler finishes: its coroutine is gone. *)
Definition reap (rid : nat) (st : State) : State :=
  set_tasks (delete rid (tasks st)) st.

(** [_build_payload] up to its [await] (role_members.py 61-83,
    subscriptions.py 60-83): the guild lookup, then the scan is started with
    an empty list under [wait_for], whose timer is armed at the loop time of
    the call.  [Some r]: raised [r]; [None]: suspended. *)
Definition _build_payload (k : Key) (bot : Bot) (st : State)
    : State * option Response :=
  let st := emit (BuildPayload k) st in
  match bot (guild_id_of k) with
  | None => (st, Some (HTTPNotFound guild_not_found))
  | Some guild => (spawn (Scanning k guild [] (loop_time st)) st, None)
  end.

(** [handler] (role_members.py 140-170) and [boosters] (subscriptions.py
    126-144), from the cache lookup on and up to the first suspension.  What
    comes before (the check of the API key and the parsing of the query, which
    answer 401 or 400 without reading [_cache] or [_locks]) gives the key [k].
    [now1] and [now2] are the values of [time.time()] at the cache check and
    at the re-check, [bot] is the guild cache of [self.bot] at this moment.
    [Some r]: answered [r]; [None]: suspended. *)
Definition handler (k : Key) (now1 now2 : Q) (bot : Bot) (st : State)
    : State * option Response :=
  match cache_hit st now1 (_cache st !! k) with
  | Some p => (st, Some (json_response p))
  | None =>
      let '(lock, st) := _get_lock k st in
      if lock then (st, Some (HTTPAccepted (building_cache k)))
      else
        match acquire k st with
        | None => (spawn (Blocked k) st, None)
        | Some st =>
            match cache_hit st now2 (_cache st !! k) with
            | Some p => (release k st, Some (json_response p))
            | None =>
                match _build_payload k bot st with
                | (st, Some raised) => (release k st, Some raised)
                | (st, None) => (st, None)
                end
            end
        end
  end.

(** The expiry of the [wait_for] timer armed at [started]. *)
Definition deadline (st : State) (started : Q) : Q :=
  (started + inject_Z (build_timeout_seconds st))%Q.

(** [fetch_members] yields [m] to the scan of task [rid]: one turn of the
    [async for] loop of [_scan]. *)
Definition on_member (rid : nat) (m : Member.t) (st : State) : option State :=
  match tasks st !! rid with
  | Some (Scanning k guild acc started) =>
      Some (set_tasks (<[rid := Scanning k guild (scan_body k m acc) started]> (tasks st)) st)
  | _ => None
  end.

(** The gateway updates the guild object a scanning task holds. *)
Definition on_guild_update (rid : nat) (guild' : Guild.t) (st : State)
    : option State :=
  match tasks st !! rid with
  | Some (Scanning k guild acc started) =>
      Some (set_tasks (<[rid := Scanning k guild' acc started]> (tasks st)) st)
  | _ => None
  end.

(** [fetch_members] is exhausted: [wait_for] returns, [_build_payload]
    assembles the payload (role_members.py 98-112, subscriptions.py 95-100),
    the handler stores it with [ts=time.time()], here [now], answers
    (role_members.py 169-170, subscriptions.py 143-144), and [async with]
    releases the lock. *)
Definition on_exhausted (rid : nat) (now : Q) (st : State)
    : option (State * Response) :=
  match tasks st !! rid with
  | Some (Scanning k guild acc started) =>
      let p := make_payload k guild acc in
      let st := reap rid st in
      let st := emit (CachePut k)
                  (set_cache (<[k := {| ts := now; payload := p |}]> (_cache st)) st) in
      Some (release k st, json_response p)
  | _ => None
  end.

(** The loop serves the expired timer: the scan is cancelled,
    [asyncio.TimeoutError] becomes [HTTPAccepted] (role_members.py 84-96,
    subscriptions.py 84-93), which leaves [async with].  The event is
    enabled from the expiry on and stands for the whole unwinding; until it
    is taken the handler is parked and holds the lock. *)
Definition on_timeout (rid : nat) (st : State) : option (State * Response) :=
  match tasks st !! rid with
  | Some (Scanning k guild acc started) =>
      if Qle_bool (deadline st started) (loop_time st)
      then Some (release k (reap rid st), HTTPAccepted (building_cache k))
      else None
  | _ => None
  end.

(** The scan raises something else (an upstream error, a cancellation): the
    exception leaves [async with]. *)
Definition on_raise (rid : nat) (st : State) : option (State * Response) :=
  match tasks st !! rid with
  | Some (Scanning k guild acc started) =>
      Some (release k (reap rid st), HTTPInternalServerError)
  | _ => None
  end.

(** Time passes on the loop clock, whatever timers are armed. *)
Definition on_tick (d : Q) (st : State) : option State :=
  if Qle_bool 0 d then Some (set_loop_time (loop_time st + d)%Q st) else None.

Inductive Event :=
| EvRequest (k : Key) (now1 now2 : Q) (bot : Bot)
| EvMember (rid : nat) (m : Member.t)
| EvGuildUpdate (rid : nat) (guild : Guild.t)
| EvExhausted (rid : nat) (now : Q)
| EvTimeout (rid : nat)
| EvRaise (rid : nat)
| EvTick (d : Q).

(** One atomic segment: the new state and the answer it sent, if any.  The
    last reading of [time.time()] an event carries is noted in [wall]. *)
Definition step (ev : Event) (st : State) : option (State * option Response) :=
  match ev with
  | EvRequest k now1 now2 bot =>
      let '(st', r) := handler k now1 now2 bot st in
      Some (set_wall now2 st', r)
  | EvMember rid m => st' ← on_member rid m st; Some (st', None)
  | EvGuildUpdate rid g => st' ← on_guild_update rid g st; Some (st', None)
  | EvExhausted rid now =>
      '(st', r) ← on_exhausted rid now st; Some (set_wall now st', Some r)
  | EvTimeout rid => '(st', r) ← on_timeout rid st; Some (st', Some r)
  | EvRaise rid => '(st', r) ← on_raise rid st; Some (st', Some r)
  | EvTick d => st' ← on_tick d st; Some (st', None)
  end.

(** A run of the loop from a state. *)
Fixpoint run (evs : list Event) (st : State) : option State :=
  match evs with
  | [] => Some st
  | ev :: evs => '(st', _) ← step ev st; run evs st'
  end.

(** The states of a feature instance that the loop can be in. *)
Inductive reachable : State -> Prop :=
| reachable_init cs bt : reachable (__init__ cs bt)
| reachable_step st ev st' r :
    reachable st -> step ev st = Some (st', r) -> reachable st'.

(** ** Vocabulary of the statements *)

(** The state right after [async with lock] has taken the lock. *)
Definition entered (k : Key) (st : State) : State :=
  emit (Acquire k) (set_locks (<[k := true]> (_locks st)) st).

(** Every call of [handler] takes exactly one of the five paths. *)
Inductive handler_path (k : Key) (now1 now2 : Q) (bot : Bot) (st : State) : State * option Response -> Prop :=
| path_hit p :
    cache_hit st now1 (_cache st !! k) = Some p ->
    handler_path k now1 now2 bot st (st, Some (json_response p))
| path_busy :
    cache_hit st now1 (_cache st !! k) = None ->
    _locks st !! k = Some true ->
    handler_path k now1 now2 bot st (st, Some (HTTPAccepted (building_cache k)))
| path_recheck p :
    cache_hit st now1 (_cache st !! k) = None ->
    _locks st !! k <> Some true ->
    cache_hit st now2 (_cache st !! k) = Some p ->
    handler_path k now1 now2 bot st
      (release k (entered k st), Some (json_response p))
| path_not_found :
    cache_hit st now1 (_cache st !! k) = None ->
    _locks st !! k <> Some true ->
    cache_hit st now2 (_cache st !! k) = None ->
    bot (guild_id_of k) = None ->
    handler_path k now1 now2 bot st
      (release k (emit (BuildPayload k) (entered k st)),
       Some (HTTPNotFound guild_not_found))
| path_build guild :
    cache_hit st now1 (_cache st !! k) = None ->
    _locks st !! k <> Some true ->
    cache_hit st now2 (_cache st !! k) = None ->
    bot (guild_id_of k) = Some guild ->
    handler_path k now1 now2 bot st
      (spawn (Scanning k guild [] (loop_time st))
         (emit (BuildPayload k) (entered k st)), None).


(** Task [t] is inside the build phase for [k]. *)
Definition building (k : Key) (t : Task) : Prop :=
  match t with
  | Scanning k' _ _ _ => k' = k
  | Blocked _ => False
  end.

(** The lock of [k] is held. *)
Definition held (st : State) (k : Key) : Prop := _locks st !! k = Some true.

#[export] Instance held_dec st k : Decision (held st k).
Proof. unfold held. apply _. Defined.

(** How often the lock of [k] was taken, and given back, so far. *)
Definition acquired (k : Key) (l : list Effect) : nat :=
  count_occ Effect_eq_dec l (Acquire k).

Definition released (k : Key) (l : list Effect) : nat :=
  count_occ Effect_eq_dec l (Release k).

(** The handler [rid], which held the lock of [k], has left and has given
    the lock back, once. *)
Definition gives_back (rid : nat) (k : Key) (st st' : State) : Prop :=
  tasks st' !! rid = None /\ ~ held st' k /\
  released k (log st') = S (released k (log st)) /\
  acquired k (log st') = acquired k (log st).

(** The run that does not move when an event is not enabled. *)
Definition exec (evs : list Event) (st : State) : State :=
  default st (run evs st).

(** Whether a run goes through, and what an event answers. *)
Definition enabled (evs : list Event) (st : State) : bool :=
  match run evs st with Some _ => true | None => false end.

Definition answer (ev : Event) (st : State) : option (option Response) :=
  snd <$> step ev st.

(** What holds of every state of the loop. *)
Record inv (st : State) : Prop := {
  inv_floor : (10 <= cache_seconds st)%Z /\ (5 <= build_timeout_seconds st)%Z;
  inv_build_held : forall rid t k,
    tasks st !! rid = Some t -> building k t -> held st k;
  inv_held_build : forall k,
    held st k -> exists rid t, tasks st !! rid = Some t /\ building k t;
  inv_single : forall rid1 rid2 t1 t2 k,
    tasks st !! rid1 = Some t1 -> tasks st !! rid2 = Some t2 ->
    building k t1 -> building k t2 -> rid1 = rid2;
  inv_unblocked : forall rid k, tasks st !! rid <> Some (Blocked k);
  inv_fresh : forall rid, next_task st <= rid -> tasks st !! rid = None;
  inv_timer : forall rid k guild acc started,
    tasks st !! rid = Some (Scanning k guild acc started) ->
    (started <= loop_time st)%Q;
  inv_balance : forall k,
    acquired k (log st) =
    released k (log st) + (if decide (held st k) then 1 else 0)
}.

(** [time.time()] does not step back: each reading is at least the one
    before. *)
Definition clock_monotone (st : State) (ev : Event) : Prop :=
  match ev with
  | EvRequest _ now1 now2 _ => (wall st <= now1)%Q /\ (now1 <= now2)%Q
  | EvExhausted _ now => (wall st <= now)%Q
  | _ => True
  end.

(** The states the loop can be in when the wall clock never steps back. *)
Inductive reachable_mono : State -> Prop :=
| reachable_mono_init cs bt : reachable_mono (__init__ cs bt)
| reachable_mono_step st ev st' r :
    reachable_mono st -> clock_monotone st ev ->
    step ev st = Some (st', r) -> reachable_mono st'.

(** While a build for [k] is in flight the entry of [k] stays expired. *)
Definition stale_while_building (st : State) : Prop :=
  forall rid t k e,
    tasks st !! rid = Some t -> building k t -> _cache st !! k = Some e ->
    (inject_Z (cache_seconds st) <= wall st - ts e)%Q.

(** While a build for [k] is parked, nobody else writes the entry of [k];
    and the number of a handler that has left is not used again. *)
Definition parked_or_gone (rid : nat) (k : Key) (c : option CacheEntry)
    (st : State) : Prop :=
  rid < next_task st /\
  (tasks st !! rid = None
   \/ exists t, tasks st !! rid = Some t /\ building k t /\ _cache st !! k = c).

End Service.

(** ** A small world to run the loop in *)

Module Sample.

Definition vip : Role.t := {| Role.id := 3; Role.name := "vip" |}.

Definition guild : Guild.t := {|
  Guild.id := 7;
  Guild.name := "lab";
  Guild.get_role := fun role_id => if Z.eqb role_id 3 then Some vip else None
|}.

(** The bot sees one guild. *)
Definition bot : Bot := fun guild_id =>
  if Z.eqb guild_id 7 then Some guild else None.

Definition alice : Member.t := {|
  Member.id := 42; Member.name := "alice"; Member.display_name := "Alice";
  Member.roles := [vip]; Member.premium_since := None
|}.

Definition bob : Member.t := {|
  Member.id := 43; Member.name := "bob"; Member.display_name := "Bob";
  Member.roles := []; Member.premium_since := None
|}.

Definition carol : Member.t := {|
  Member.id := 44; Member.name := "carol"; Member.display_name := "Carol";
  Member.roles := [{| Role.id := 99; Role.name := "ghost" |}];
  Member.premium_since := None
|}.

Definition dave : Member.t := {|
  Member.id := 45; Member.name := "dave"; Member.display_name := "Dave";
  Member.roles := [];
  Member.premium_since := Some {| DateTime.isoformat := "2024-05-01T12:00:00+00:00" |}
|}.

(** A bot that sees no guild. *)
Definition blind : Bot := fun _ => None.

(** A key of the guild, a key of a guild the bot does not see, and a key
    whose role the guild does not know. *)
Definition key : @Key RoleMembers.feature := (7, 3)%Z.
Definition key_elsewhere : @Key RoleMembers.feature := (8, 3)%Z.
Definition key_no_role : @Key RoleMembers.feature := (7, 99)%Z.

(** A fresh instance with a TTL of 10 s and a deadline of 5 s. *)
Definition fresh : State (F := RoleMembers.feature) := __init__ 10 5.

(** A build for [key] is in flight (task 0), nothing is cached. *)
Definition building_first : State := exec [EvRequest key 0 0 bot] fresh.

(** The build has completed at time 0: the entry of [key] is there. *)
Definition cached : State :=
  exec [EvRequest key 0 0 bot; EvMember 0 alice; EvMember 0 bob; EvExhausted 0 0]
    fresh.

(** At time 11 the entry has expired and a second build (task 1) is in
    flight. *)
Definition rebuilding : State := exec [EvRequest key 11 11 bot] cached.

(** What the loop does while the second build is in flight: its scan gets a
    member, a second request for the key arrives, a build for another key
    starts, scans and completes, and five seconds pass. *)
Definition meanwhile : list (Event (F := RoleMembers.feature)) :=
  [EvMember 1 alice;
   EvRequest key 12 12 bot;
   EvRequest key_no_role 12 12 bot;
   EvMember 2 carol;
   EvExhausted 2 13;
   EvTick 5].

(** The second build has timed out. *)
Definition timed_out : State := exec [EvTimeout 1] (exec meanwhile rebuilding).

End Sample.

(** ** In front of the cache: the request, the API key, the query *)

Module Py.

(** The two builtins that the front and the settings call on strings.
    [strip] is [s.strip()]; [int] is [int(s)], with [None] for the
    [ValueError]. *)
Class Builtins := {
  strip : string -> string;
  int : string -> option Z
}.

(** [str(n)] for an [int]. *)
Definition str (n : Z) : string := pretty n.

(** [m.get(name, default)] on a mapping with string keys; also
    [os.getenv(name, default)]. *)
Definition get (m : string -> option string) (name default : string) : string :=
  match m name with
  | Some v => v
  | None => default
  end.

End Py.

(** What a handler reads of an [aiohttp] request: the lookups of
    [request.headers] and of [request.query]. *)
Record Request := {
  headers : string -> option string;
  query : string -> option string
}.

(** The exceptions that are raised before the cache is looked at. *)
Inductive Refusal :=
| HTTPUnauthorized (text : Json)
| HTTPBadRequest (text : Json).

Definition error_body (msg : string) : Json := JDict [("error", JStr msg)].

(** A feature object: its API key and the rest of [self]. *)
Record Endpoint {F : Feature} := {
  api_key : string;
  core : State
}.

Section Front.
Context {F : Feature}.

(** The constructor, whole: [self.api_key = api_key] and the fields set by
    [__init__]. *)
Definition endpoint (api_key : string) (cache_seconds build_timeout_seconds : Z)
    : Endpoint :=
  {| api_key := api_key; core := __init__ cache_seconds build_timeout_seconds |}.

(** [_auth] (role_members.py 43-49, subscriptions.py 42-48): [None] when it
    returns, [Some] of what it raises. *)
Definition _auth (self : Endpoint) (request : Request) : option Refusal :=
  let key := Py.get (headers request) "x-admin-lab-key" "" in
  if decide (key = api_key self) then None
  else Some (HTTPUnauthorized (error_body "unauthorized")).

(** The rest of a handler once the key is there: the core, on [self]. *)
Definition serve (self : Endpoint) (k : Key) (now1 now2 : Q) (bot : Bot)
    : Endpoint * option (Refusal + Response) :=
  let '(st, r) := handler k now1 now2 bot (core self) in
  ({| api_key := api_key self; core := st |}, inr <$> r).

End Front.

Module RoleMembersFeature.
Section Front.
Context {py : Py.Builtins}.

(** role_members.py 117-140: the two ids of the query. *)
Definition cache_key (request : Request) : Refusal + RoleMembers.CacheKey :=
  let gid := Py.strip (Py.get (query request) "guild_id" "") in
  let rid := Py.strip (Py.get (query request) "role_id" "") in
  if decide (gid = "") then inl (HTTPBadRequest (error_body "missing guild_id"))
  else if decide (rid = "") then inl (HTTPBadRequest (error_body "missing role_id"))
  else
    match Py.int gid with
    | None => inl (HTTPBadRequest (error_body "invalid guild_id_or_role_id"))
    | Some guild_id =>
        match Py.int rid with
        | None => inl (HTTPBadRequest (error_body "invalid guild_id_or_role_id"))
        | Some role_id => inr (guild_id, role_id)
        end
    end.

(** [handler] (role_members.py 114-170), up to its first suspension. *)
Definition handler (self : Endpoint (F := RoleMembers.feature))
    (request : Request) (now1 now2 : Q) (bot : Bot)
    : Endpoint (F := RoleMembers.feature) * option (Refusal + Response) :=
  match _auth self request with
  | Some raised => (self, Some (inl raised))
  | None =>
      match cache_key request with
      | inl raised => (self, Some (inl raised))
      | inr k => serve self k now1 now2 bot
      end
  end.

End Front.
End RoleMembersFeature.

Module SubscriptionFeature.
Section Front.
Context {py : Py.Builtins}.

(** subscriptions.py 112-124: the id of the query. *)
Definition cache_key (request : Request) : Refusal + Z :=
  let gid := Py.strip (Py.get (query request) "guild_id" "") in
  if decide (gid = "") then inl (HTTPBadRequest (error_body "missing guild_id"))
  else
    match Py.int gid with
    | None => inl (HTTPBadRequest (error_body "invalid guild_id"))
    | Some guild_id => inr guild_id
    end.

(** [boosters] (subscriptions.py 109-144), up to its first suspension. *)
Definition boosters (self : Endpoint (F := Subscriptions.feature))
    (request : Request) (now1 now2 : Q) (bot : Bot)
    : Endpoint (F := Subscriptions.feature) * option (Refusal + Response) :=
  match _auth self request with
  | Some raised => (self, Some (inl raised))
  | None =>
      match cache_key request with
      | inl raised => (self, Some (inl raised))
      | inr k => serve self k now1 now2 bot
      end
  end.

End Front.
End SubscriptionFeature.

(** ** The settings and the wiring *)

Module Settings.

Record t := {
  discord_bot_token : string;
  admin_lab_api_key : string;
  http_host : string;
  http_port : Z;
  boosters_cache_seconds : Z;
  role_members_cache_seconds : Z
}.

(** What [load_settings] raises: its own [RuntimeError]s and the
    [ValueError] of [int]. *)
Inductive Error :=
| RuntimeError (msg : string)
| ValueError.

Section Load.
Context {py : Py.Builtins}.

(** [load_settings] (settings.py 17-40) on the environment [environ]. *)
Definition load_settings (environ : string -> option string) : Error + t :=
  let token := Py.strip (Py.get environ "DISCORD_BOT_TOKEN" "") in
  let key := Py.strip (Py.get environ "ADMIN_LAB_API_KEY" "") in
  if decide (token = "") then
    inl (RuntimeError "DISCORD_BOT_TOKEN manquant dans .env")
  else if decide (key = "") then
    inl (RuntimeError "ADMIN_LAB_API_KEY manquant dans .env")
  else
    let host := Py.strip (Py.get environ "HTTP_HOST" "127.0.0.1") in
    match Py.int (Py.strip (Py.get environ "HTTP_PORT" "8787")) with
    | None => inl ValueError
    | Some port =>
        match Py.int (Py.strip (Py.get environ "BOOSTERS_CACHE_SECONDS" "300")) with
        | None => inl ValueError
        | Some boosters_cache_seconds =>
            match Py.int (Py.strip (Py.get environ "ROLE_MEMBERS_CACHE_SECONDS"
                                      (Py.str boosters_cache_seconds))) with
            | None => inl ValueError
            | Some role_members_cache_seconds =>
                inr {| discord_bot_token := token;
                       admin_lab_api_key := key;
                       http_host := host;
                       http_port := port;
                       boosters_cache_seconds := boosters_cache_seconds;
                       role_members_cache_seconds := role_members_cache_seconds |}
            end
        end
    end.

End Load.
End Settings.

Module Main.

(** What [main] sets up (main.py 10-28): the settings, the two feature
    objects, the flag [api_started] and the [start_api] tasks created so far,
    each with the host and the port it listens on. *)
Record App := {
  settings : Settings.t;
  subs : Endpoint (F := Subscriptions.feature);
  role_members : Endpoint (F := RoleMembers.feature);
  api_started : bool;
  api_tasks : list (string * Z)
}.

(** [main] up to [bot.start]: neither constructor is given
    [build_timeout_seconds], whose default is 25. *)
Definition main {py : Py.Builtins} (environ : string -> option string)
    : Settings.Error + App :=
  match Settings.load_settings environ with
  | inl raised => inl raised
  | inr s =>
      inr {| settings := s;
             subs := endpoint (Settings.admin_lab_api_key s)
                       (Settings.boosters_cache_seconds s) 25;
             role_members := endpoint (Settings.admin_lab_api_key s)
                               (Settings.role_members_cache_seconds s) 25;
             api_started := false;
             api_tasks := [] |}
  end.

(** [on_ready] (main.py 32-39): the API is started by the first call only. *)
Definition on_ready (app : App) : App :=
  if api_started app then app
  else {| settings := settings app;
          subs := subs app;
          role_members := role_members app;
          api_started := true;
          api_tasks := api_tasks app ++
            [(Settings.http_host (settings app), Settings.http_port (settings app))] |}.

End Main.

(** The entries the boosters scan collects from [ms]: one dict for each
    member that has [premium_since], in the order of arrival. *)
Definition boosters_of (ms : list Member.t) : list Json :=
  flat_map
    (fun m =>
       match Member.premium_since m with
       | Some since =>
           [JDict [("discord_user_id", JStr (pretty (Member.id m)));
                   ("username", JStr (Member.name m));
                   ("display_name", JStr (Member.display_name m));
                   ("premium_since", JStr (DateTime.isoformat since))]]
       | None => []
       end)
    ms.

(** The builtins of the sample world: [strip] removes ASCII white space at
    both ends, [int] reads an optional minus sign and decimal digits. *)
Module SamplePy.

Fixpoint lstrip (s : string) : string :=
  match s with
  | String c s' => if Ascii.is_space c then lstrip s' else s
  | EmptyString => EmptyString
  end.

Fixpoint rstrip (s : string) : string :=
  match s with
  | String c s' =>
      match rstrip s' with
      | EmptyString => if Ascii.is_space c then EmptyString else String c EmptyString
      | r => String c r
      end
  | EmptyString => EmptyString
  end.

Definition strip (s : string) : string := rstrip (lstrip s).

Fixpoint digits (s : string) (acc : N) : option N :=
  match s with
  | String c s' =>
      match Ascii.is_nat c with
      | Some d => digits s' (acc * 10 + N.of_nat d)
      | None => None
      end
  | EmptyString => Some acc
  end.

Definition int (s : string) : option Z :=
  match s with
  | EmptyString => None
  | String c s' =>
      if decide (c = "-"%char) then
        if decide (s' = EmptyString) then None
        else (fun n => Z.opp (Z.of_N n)) <$> digits s' 0
      else Z.of_N <$> digits s 0
  end.

Definition py : Py.Builtins := {| Py.strip := strip; Py.int := int |}.

(** No white space anywhere in [s]. *)
Fixpoint solid (s : string) : bool :=
  match s with
  | String c s' => negb (Ascii.is_space c) && solid s'
  | EmptyString => true
  end.

End SamplePy.

(** The sample world, continued: an environment, requests, the boosters
    feature. *)
Module SampleFront.

(** Only the two secrets are set; the token has white space around it. *)
Definition environ : string -> option string := fun name =>
  if decide (name = "DISCORD_BOT_TOKEN") then Some " token "
  else if decide (name = "ADMIN_LAB_API_KEY") then Some "secret"
  else None.

(** A request with the given header and query values. *)
Definition request (key guild_id role_id : option string) : Request := {|
  headers := fun name => if decide (name = "x-admin-lab-key") then key else None;
  query := fun name =>
    if decide (name = "guild_id") then guild_id
    else if decide (name = "role_id") then role_id
    else None
|}.

(** What [main] sets up in this environment. *)
Definition app : Main.App := {|
  Main.settings := {|
    Settings.discord_bot_token := "token";
    Settings.admin_lab_api_key := "secret";
    Settings.http_host := "127.0.0.1";
    Settings.http_port := 8787;
    Settings.boosters_cache_seconds := 300;
    Settings.role_members_cache_seconds := 300
  |};
  Main.subs := endpoint "secret" 300 25;
  Main.role_members := endpoint "secret" 300 25;
  Main.api_started := false;
  Main.api_tasks := []
|}.

(** The boosters feature after one completed build for guild 7. *)
Definition boosters_cached : State (F := Subscriptions.feature) :=
  exec [EvRequest (F := Subscriptions.feature) 7%Z 0 0 Sample.bot;
        EvMember 0 Sample.alice; EvMember 0 Sample.dave; EvExhausted 0 2]
    (__init__ 300 25).

(** The first build of the role-members feature, completed at time 1. *)
Definition committed : State (F := RoleMembers.feature) :=
  exec [EvExhausted 0 1] Sample.building_first.

(** The first build at its deadline, and timed out. *)
Definition at_deadline : State (F := RoleMembers.feature) :=
  exec [EvTick 5] Sample.building_first.

Definition after_timeout : State (F := RoleMembers.feature) :=
  exec [EvTimeout 0] at_deadline.

(** The first build a millisecond after its deadline: the loop has not
    served the timer yet. *)
Definition overdue : State (F := RoleMembers.feature) :=
  exec [EvTick (5001 # 1000)] Sample.building_first.

End SampleFront.

(** * Facts *)

Lemma Qltb_lt x y : Qltb x y = true <-> (x < y)%Q.
Proof.
  unfold Qltb. rewrite negb_true_iff, <- not_true_iff_false, Qle_bool_iff.
  split; [apply Qnot_le_lt | apply Qlt_not_le].
Qed.

Lemma Qltb_ge x y : Qltb x y = false <-> (y <= x)%Q.
Proof.
  unfold Qltb. rewrite negb_false_iff. apply Qle_bool_iff.
Qed.

Section ServiceFacts.
Context {F : Feature}.
Implicit Types (st : State) (k : Key) (rid : nat) (now : Q).

(** ** The paths through [handler] *)

Lemma handler_hit k now1 now2 bot st p :
  cache_hit st now1 (_cache st !! k) = Some p ->
  handler k now1 now2 bot st = (st, Some (json_response p)).
Proof. intros H. unfold handler. now rewrite H. Qed.

Lemma handler_busy k now1 now2 bot st :
  cache_hit st now1 (_cache st !! k) = None ->
  _locks st !! k = Some true ->
  handler k now1 now2 bot st = (st, Some (HTTPAccepted (building_cache k))).
Proof. intros H1 H2. unfold handler, _get_lock. now rewrite H1, H2. Qed.

Lemma enter_free k st :
  _locks st !! k <> Some true ->
  acquire k (snd (_get_lock k st)) = Some (entered k st)
  /\ fst (_get_lock k st) = false.
Proof.
  intros Hfree. unfold _get_lock, acquire, entered.
  destruct (_locks st !! k) as [[]|] eqn:E; try congruence; simpl.
  - now rewrite E.
  - rewrite lookup_insert_eq. now rewrite insert_insert_eq.
Qed.

Lemma handler_recheck k now1 now2 bot st p :
  cache_hit st now1 (_cache st !! k) = None ->
  _locks st !! k <> Some true ->
  cache_hit st now2 (_cache st !! k) = Some p ->
  handler k now1 now2 bot st = (release k (entered k st), Some (json_response p)).
Proof.
  intros H1 Hfree H2. unfold handler. rewrite H1.
  destruct (enter_free k st Hfree) as [Ha Hl].
  destruct (_get_lock k st) as [l st1]; simpl in *; subst l.
  rewrite Ha. change (cache_hit (entered k st) now2 (_cache (entered k st) !! k))
    with (cache_hit st now2 (_cache st !! k)). now rewrite H2.
Qed.

Lemma handler_not_found k now1 now2 bot st :
  cache_hit st now1 (_cache st !! k) = None ->
  _locks st !! k <> Some true ->
  cache_hit st now2 (_cache st !! k) = None ->
  bot (guild_id_of k) = None ->
  handler k now1 now2 bot st =
    (release k (emit (BuildPayload k) (entered k st)),
     Some (HTTPNotFound guild_not_found)).
Proof.
  intros H1 Hfree H2 Hg. unfold handler. rewrite H1.
  destruct (enter_free k st Hfree) as [Ha Hl].
  destruct (_get_lock k st) as [l st1]; simpl in *; subst l.
  rewrite Ha. change (cache_hit (entered k st) now2 (_cache (entered k st) !! k))
    with (cache_hit st now2 (_cache st !! k)). rewrite H2.
  unfold _build_payload. now rewrite Hg.
Qed.

Lemma handler_build k now1 now2 bot st guild :
  cache_hit st now1 (_cache st !! k) = None ->
  _locks st !! k <> Some true ->
  cache_hit st now2 (_cache st !! k) = None ->
  bot (guild_id_of k) = Some guild ->
  handler k now1 now2 bot st =
    (spawn (Scanning k guild [] (loop_time st))
       (emit (BuildPayload k) (entered k st)), None).
Proof.
  intros H1 Hfree H2 Hg. unfold handler. rewrite H1.
  destruct (enter_free k st Hfree) as [Ha Hl].
  destruct (_get_lock k st) as [l st1]; simpl in *; subst l.
  rewrite Ha. change (cache_hit (entered k st) now2 (_cache (entered k st) !! k))
    with (cache_hit st now2 (_cache st !! k)). rewrite H2.
  unfold _build_payload. now rewrite Hg.
Qed.

Lemma handler_paths k now1 now2 bot st :
  handler_path k now1 now2 bot st (handler k now1 now2 bot st).
Proof.
  destruct (cache_hit st now1 (_cache st !! k)) as [p|] eqn:H1.
  { rewrite (handler_hit _ _ _ _ _ _ H1). now constructor. }
  destruct (decide (_locks st !! k = Some true)) as [Hl|Hl].
  { rewrite (handler_busy _ _ _ _ _ H1 Hl). now constructor. }
  destruct (cache_hit st now2 (_cache st !! k)) as [p|] eqn:H2.
  { rewrite (handler_recheck _ _ _ _ _ _ H1 Hl H2). now constructor. }
  destruct (bot (guild_id_of k)) as [g|] eqn:Hg.
  - rewrite (handler_build _ _ _ _ _ _ H1 Hl H2 Hg). now constructor.
  - rewrite (handler_not_found _ _ _ _ _ H1 Hl H2 Hg). now constructor.
Qed.

(** ** The invariant of the loop *)

Lemma inv_init cs bt : inv (__init__ cs bt).
Proof.
  constructor; unfold held; simpl.
  - lia.
  - intros ? ? ? H. now rewrite lookup_empty in H.
  - intros ? H. now rewrite lookup_empty in H.
  - intros ? ? ? ? ? H. now rewrite lookup_empty in H.
  - intros ? ? H. now rewrite lookup_empty in H.
  - intros. apply lookup_empty.
  - intros ? ? ? ? ? H. now rewrite lookup_empty in H.
  - intros k. destruct (decide _) as [H|]; [now rewrite lookup_empty in H | reflexivity].
Qed.

Lemma acquired_app k l1 l2 : acquired k (l1 ++ l2) = acquired k l1 + acquired k l2.
Proof. apply count_occ_app. Qed.
Lemma released_app k l1 l2 : released k (l1 ++ l2) = released k l1 + released k l2.
Proof. apply count_occ_app. Qed.

Lemma acquired_cons k e l :
  acquired k (e :: l) = (if decide (e = Acquire k) then 1 else 0) + acquired k l.
Proof.
  unfold acquired. destruct (decide (e = Acquire k)) as [->|Hne].
  - now rewrite count_occ_cons_eq.
  - now rewrite count_occ_cons_neq.
Qed.

Lemma released_cons k e l :
  released k (e :: l) = (if decide (e = Release k) then 1 else 0) + released k l.
Proof.
  unfold released. destruct (decide (e = Release k)) as [->|Hne].
  - now rewrite count_occ_cons_eq.
  - now rewrite count_occ_cons_neq.
Qed.

Lemma acquired_nil k : acquired k [] = 0.
Proof. reflexivity. Qed.

Lemma released_nil k : released k [] = 0.
Proof. reflexivity. Qed.

Ltac count_log :=
  rewrite ?acquired_app, ?released_app, ?acquired_cons, ?released_cons,
    ?acquired_app, ?released_app, ?acquired_cons, ?released_cons,
    ?acquired_nil, ?released_nil.

Lemma inv_set_wall t st : inv st -> inv (set_wall t st).
Proof. intros []. now constructor. Qed.

Lemma held_insert st k k' b l :
  _locks st = <[k := b]> l ->
  held st k' <-> (k' = k /\ b = true) \/ (k' <> k /\ l !! k' = Some true).
Proof.
  intros E. unfold held. rewrite E. destruct (decide (k' = k)) as [->|Hne].
  - rewrite lookup_insert_eq. split; [intros [= ->]; auto | intros [[_ ->]|[? _]]; congruence].
  - rewrite lookup_insert_ne by congruence. split; [auto | intros [[? _]|[_ ?]]; congruence].
Qed.


Lemma building_inj k k' t : building k t -> building k' t -> k = k'.
Proof. destruct t; simpl; [congruence | tauto]. Qed.

(** The lock is taken and given back within one segment. *)
Lemma inv_enter_leave st st' k mid :
  inv st -> ~ held st k ->
  cache_seconds st' = cache_seconds st ->
  build_timeout_seconds st' = build_timeout_seconds st ->
  tasks st' = tasks st -> next_task st' = next_task st ->
  loop_time st' = loop_time st ->
  _locks st' = <[k := false]> (_locks st) ->
  log st' = log st ++ Acquire k :: mid ++ [Release k] ->
  (forall k', acquired k' mid = 0 /\ released k' mid = 0) ->
  inv st'.
Proof.
  intros [Hfl Hbh Hhb Hs Hub Hfr Htm Hbal] Hfree Ec Eb Et En El Elk Elog Hmid.
  assert (Hheld : forall k', held st' k' <-> k' <> k /\ held st k').
  { intros k'. rewrite (held_insert st' k k' false _ Elk). unfold held.
    intuition congruence. }
  constructor; rewrite ?Ec, ?Eb, ?Et, ?En, ?El; unfold deadline; rewrite ?Eb;
    try assumption.
  - intros rid t k' Ht Hb. apply Hheld. split; [|eauto].
    intros ->. apply Hfree. eauto.
  - intros k' Hk. apply Hheld in Hk as [_ Hk]. auto.
  - intros k'. rewrite Elog. specialize (Hbal k'). destruct (Hmid k') as [Ha Hr].
    count_log. rewrite Ha, Hr.
    destruct (decide (k' = k)) as [->|Hne];
      destruct (decide (held st' _)) as [H'|H'], (decide (held st _)) as [H|H];
      rewrite Hheld in H'; try tauto; repeat case_decide; simplify_eq; lia.
Qed.

(** A build is started: the lock is taken, the handler is parked. *)
Lemma inv_start st k guild :
  inv st -> ~ held st k ->
  inv (spawn (Scanning k guild [] (loop_time st))
         (emit (BuildPayload k) (entered k st))).
Proof.
  intros [Hfl Hbh Hhb Hs Hub Hfr Htm Hbal] Hfree.
  set (st' := spawn _ _).
  assert (Hheld : forall k', held st' k' <-> k' = k \/ held st k').
  { intros k'. rewrite (held_insert st' k k' true (_locks st) eq_refl). unfold held.
    destruct (decide (k' = k)); intuition congruence. }
  assert (Hnew : tasks st !! next_task st = None) by (apply Hfr; lia).
  constructor; simpl; unfold deadline; simpl.
  - assumption.
  - intros rid t k' Ht Hb. apply Hheld.
    destruct (decide (rid = next_task st)) as [->|Hne].
    + rewrite lookup_insert_eq in Ht. injection Ht as <-. now left.
    + rewrite lookup_insert_ne in Ht by congruence. right. eauto.
  - intros k' Hk. apply Hheld in Hk as [->|Hk].
    + exists (next_task st), (Scanning k guild [] (loop_time st)).
      now rewrite lookup_insert_eq.
    + destruct (Hhb _ Hk) as (rid & t & Ht & Hb). exists rid, t. split; [|assumption].
      rewrite lookup_insert_ne; [assumption|]. intros <-. congruence.
  - intros rid1 rid2 t1 t2 k' H1 H2 B1 B2.
    destruct (decide (rid1 = next_task st)) as [->|N1];
      destruct (decide (rid2 = next_task st)) as [->|N2]; [reflexivity|..].
    + rewrite lookup_insert_eq in H1. injection H1 as <-. simpl in B1. subst k'.
      rewrite lookup_insert_ne in H2 by congruence. destruct Hfree. eauto.
    + rewrite lookup_insert_eq in H2. injection H2 as <-. simpl in B2. subst k'.
      rewrite lookup_insert_ne in H1 by congruence. destruct Hfree. eauto.
    + rewrite lookup_insert_ne in H1, H2 by congruence. eauto.
  - intros rid k'. destruct (decide (rid = next_task st)) as [->|Hne].
    + now rewrite lookup_insert_eq.
    + rewrite lookup_insert_ne by congruence. apply Hub.
  - intros rid Hge. rewrite lookup_insert_ne by lia. apply Hfr. lia.
  - intros rid k' g acc s. destruct (decide (rid = next_task st)) as [->|Hne].
    + rewrite lookup_insert_eq. intros [= <- <- <- <-]. lra.
    + rewrite lookup_insert_ne by congruence. apply Htm.
  - intros k'. specialize (Hbal k'). count_log.
    destruct (decide (k' = k)) as [->|Hne];
      destruct (decide (held st' _)) as [H'|H'], (decide (held st _)) as [H|H];
      rewrite Hheld in H'; try tauto; repeat case_decide; simplify_eq; lia.
Qed.

(** A parked build is replaced by one for the same key with the same timer. *)
Lemma inv_update st rid k g acc g' acc' started :
  inv st -> tasks st !! rid = Some (Scanning k g acc started) ->
  inv (set_tasks (<[rid := Scanning k g' acc' started]> (tasks st)) st).
Proof.
  intros [Hfl Hbh Hhb Hs Hub Hfr Htm Hbal] Hrid.
  assert (Hsame : forall rid' t k', <[rid := Scanning k g' acc' started]> (tasks st) !! rid' = Some t ->
            building k' t -> exists t0, tasks st !! rid' = Some t0 /\ building k' t0).
  { intros rid' t k'. destruct (decide (rid' = rid)) as [->|Hne].
    - rewrite lookup_insert_eq. intros [= <-] Hb. eauto.
    - rewrite lookup_insert_ne by congruence. eauto. }
  constructor; simpl; unfold deadline, held in *; simpl; try assumption.
  - intros rid' t k' Ht Hb. destruct (Hsame _ _ _ Ht Hb) as (t0 & H0 & B0). eauto.
  - intros k' Hk. destruct (Hhb _ Hk) as (rid' & t & Ht & Hb).
    destruct (decide (rid' = rid)) as [->|Hne].
    + exists rid, (Scanning k g' acc' started). rewrite lookup_insert_eq.
      split; [reflexivity|]. rewrite Hrid in Ht. injection Ht as <-. exact Hb.
    + exists rid', t. now rewrite lookup_insert_ne by congruence.
  - intros rid1 rid2 t1 t2 k' H1 H2 B1 B2.
    destruct (Hsame _ _ _ H1 B1) as (? & ? & ?), (Hsame _ _ _ H2 B2) as (? & ? & ?). eauto.
  - intros rid' k'. destruct (decide (rid' = rid)) as [->|Hne].
    + now rewrite lookup_insert_eq.
    + rewrite lookup_insert_ne by congruence. apply Hub.
  - intros rid' Hge. destruct (decide (rid' = rid)) as [->|Hne].
    + rewrite Hfr in Hrid by assumption. discriminate.
    + rewrite lookup_insert_ne by congruence. auto.
  - intros rid' k' g0 acc0 s. destruct (decide (rid' = rid)) as [->|Hne].
    + rewrite lookup_insert_eq. intros [= <- <- <- <-]. eauto.
    + rewrite lookup_insert_ne by congruence. apply Htm.
Qed.

(** A build leaves: its handler is gone and the lock is given back. *)
Lemma inv_exit st st' rid t k mid :
  inv st -> tasks st !! rid = Some t -> building k t ->
  cache_seconds st' = cache_seconds st ->
  build_timeout_seconds st' = build_timeout_seconds st ->
  tasks st' = delete rid (tasks st) -> next_task st' = next_task st ->
  loop_time st' = loop_time st ->
  _locks st' = <[k := false]> (_locks st) ->
  log st' = log st ++ mid ++ [Release k] ->
  (forall k', acquired k' mid = 0 /\ released k' mid = 0) ->
  inv st'.
Proof.
  intros [Hfl Hbh Hhb Hs Hub Hfr Htm Hbal] Hrid Hb Ec Eb Et En El Elk Elog Hmid.
  assert (Hk : held st k) by eauto.
  assert (Hheld : forall k', held st' k' <-> k' <> k /\ held st k').
  { intros k'. rewrite (held_insert st' k k' false _ Elk). unfold held.
    intuition congruence. }
  assert (Hrest : forall rid' t', delete rid (tasks st) !! rid' = Some t' ->
            rid' <> rid /\ tasks st !! rid' = Some t').
  { intros rid' t'. destruct (decide (rid' = rid)) as [->|Hne].
    - now rewrite lookup_delete_eq.
    - now rewrite lookup_delete_ne by congruence. }
  constructor; rewrite ?Ec, ?Eb, ?Et, ?En, ?El; unfold deadline; rewrite ?Eb;
    try assumption.
  - intros rid' t' k' Ht' Hb'. apply Hrest in Ht' as [Hne Ht'].
    apply Hheld. split; [|eauto]. intros ->. apply Hne. eauto.
  - intros k' Hk'. apply Hheld in Hk' as [Hne Hk'].
    destruct (Hhb _ Hk') as (rid' & t' & Ht' & Hb'). exists rid', t'.
    split; [|assumption]. rewrite lookup_delete_ne; [assumption|].
    intros <-. rewrite Hrid in Ht'. injection Ht' as <-.
    apply Hne. eapply building_inj; eassumption.
  - intros rid1 rid2 t1 t2 k' H1 H2 B1 B2.
    apply Hrest in H1 as [_ H1], H2 as [_ H2]. eauto.
  - intros rid' k' H'. apply Hrest in H' as [_ H']. now apply Hub in H'.
  - intros rid' Hge. destruct (decide (rid' = rid)) as [->|Hne].
    + apply lookup_delete_eq.
    + rewrite lookup_delete_ne by congruence. auto.
  - intros rid' k' g acc s H'. apply Hrest in H' as [_ H']. eauto.
  - intros k'. rewrite Elog. specialize (Hbal k'). destruct (Hmid k') as [Ha Hr].
    count_log. rewrite Ha, Hr.
    destruct (decide (k' = k)) as [->|Hne];
      destruct (decide (held st' _)) as [H'|H'], (decide (held st _)) as [H|H];
      rewrite Hheld in H'; try tauto; repeat case_decide; simplify_eq; lia.
Qed.

Lemma inv_tick st d st' : inv st -> on_tick d st = Some st' -> inv st'.
Proof.
  intros [Hfl Hbh Hhb Hs Hub Hfr Htm Hbal]. unfold on_tick.
  destruct (Qle_bool 0 d) eqn:Hd; [|discriminate]. intros [= <-].
  apply Qle_bool_iff in Hd.
  constructor; simpl; try assumption.
  intros rid k g acc s Hrid. pose proof (Htm _ _ _ _ _ Hrid). lra.
Qed.

Lemma inv_set_cache c st : inv st -> inv (set_cache c st).
Proof. intros []. now constructor. Qed.

Theorem inv_step st ev st' r : inv st -> step ev st = Some (st', r) -> inv st'.
Proof.
  intros Hinv. destruct ev as [k now1 now2 bot|rid m|rid g|rid now|rid|rid|d]; simpl.
  - pose proof (handler_paths k now1 now2 bot st) as Hp.
    destruct (handler k now1 now2 bot st) as [st1 r1]. intros [= <- <-].
    apply inv_set_wall. inversion Hp; subst; try assumption.
    + eapply (inv_enter_leave st _ k []); try reflexivity; try assumption.
      * simpl. now rewrite insert_insert_eq.
      * simpl. now rewrite <- !app_assoc.
      * intros; split; reflexivity.
    + eapply (inv_enter_leave st _ k [BuildPayload k]); try reflexivity; try assumption.
      * simpl. now rewrite insert_insert_eq.
      * simpl. now rewrite <- !app_assoc.
      * intros; split; reflexivity.
    + now apply inv_start.
  - unfold on_member. destruct (tasks st !! rid) as [[k g acc s|]|] eqn:E; try discriminate.
    intros [= <- <-]. eapply inv_update; eassumption.
  - unfold on_guild_update. destruct (tasks st !! rid) as [[k g0 acc s|]|] eqn:E; try discriminate.
    intros [= <- <-]. eapply inv_update; eassumption.
  - unfold on_exhausted. destruct (tasks st !! rid) as [[k g acc s|]|] eqn:E; try discriminate.
    intros [= <- <-]. apply inv_set_wall.
    eapply (inv_exit st _ rid _ k [CachePut k]); try eassumption; try reflexivity.
    + simpl. now rewrite <- !app_assoc.
    + intros; split; reflexivity.
  - unfold on_timeout. destruct (tasks st !! rid) as [[k g acc s|]|] eqn:E; try discriminate.
    simpl. destruct (Qle_bool _ _); [|discriminate]. intros [= <- <-].
    eapply (inv_exit st _ rid _ k []); try eassumption; try reflexivity.
    intros; split; reflexivity.
  - unfold on_raise. destruct (tasks st !! rid) as [[k g acc s|]|] eqn:E; try discriminate.
    intros [= <- <-].
    eapply (inv_exit st _ rid _ k []); try eassumption; try reflexivity.
    intros; split; reflexivity.
  - destruct (on_tick d st) as [st1|] eqn:E; [|discriminate]. intros [= <- <-].
    eapply inv_tick; eassumption.
Qed.

Theorem reachable_inv st : reachable st -> inv st.
Proof.
  induction 1 as [cs bt|st ev st' r _ IH Hstep].
  - apply inv_init.
  - eapply inv_step; eassumption.
Qed.

(** ** Runs *)

Lemma run_reachable evs st st' : reachable st -> run evs st = Some st' -> reachable st'.
Proof.
  revert st. induction evs as [|ev evs IH]; simpl; intros st Hr.
  - now intros [= <-].
  - destruct (step ev st) as [[st1 r]|] eqn:E; [|discriminate]. simpl.
    apply IH. eapply reachable_step; eassumption.
Qed.

Lemma exec_reachable evs st : reachable st -> reachable (exec evs st).
Proof.
  intros Hr. unfold exec. destruct (run evs st) as [st'|] eqn:E; simpl.
  - eapply run_reachable; eassumption.
  - assumption.
Qed.

Lemma step_exec ev st r :
  answer ev st = Some r -> step ev st = Some (exec [ev] st, r).
Proof.
  unfold answer, exec. simpl. destruct (step ev st) as [[st' r']|]; simpl.
  - now intros [= ->].
  - discriminate.
Qed.

Lemma run_exec evs st :
  enabled evs st = true -> run evs st = Some (exec evs st).
Proof.
  unfold enabled, exec. now destruct (run evs st).
Qed.

Lemma run_app evs1 evs2 st :
  run (evs1 ++ evs2) st = run evs1 st ≫= run evs2.
Proof.
  revert st. induction evs1 as [|ev evs1 IH]; simpl; intros st; [reflexivity|].
  destruct (step ev st) as [[st1 r]|]; simpl; [apply IH | reflexivity].
Qed.

Lemma reachable_mono_reachable st : reachable_mono st -> reachable st.
Proof.
  induction 1; [apply reachable_init | eapply reachable_step; eassumption].
Qed.

Lemma exec_reachable_mono ev st :
  reachable_mono st -> clock_monotone st ev -> reachable_mono (exec [ev] st).
Proof.
  intros Hr Hm. unfold exec. simpl.
  destruct (step ev st) as [[st' r]|] eqn:E; simpl; [|assumption].
  eapply reachable_mono_step; eassumption.
Qed.

(** The two settings never change. *)
Lemma step_config ev st st' r :
  step ev st = Some (st', r) ->
  cache_seconds st' = cache_seconds st /\
  build_timeout_seconds st' = build_timeout_seconds st.
Proof.
  destruct ev as [k now1 now2 bot|rid m|rid g|rid now|rid|rid|d]; simpl.
  - pose proof (handler_paths k now1 now2 bot st) as Hp.
    destruct (handler k now1 now2 bot st) as [st1 r1]. intros [= <- <-].
    inversion Hp; subst; split; reflexivity.
  - unfold on_member. destruct (tasks st !! rid) as [[]|]; try discriminate.
    intros [= <- <-]. split; reflexivity.
  - unfold on_guild_update. destruct (tasks st !! rid) as [[]|]; try discriminate.
    intros [= <- <-]. split; reflexivity.
  - unfold on_exhausted. destruct (tasks st !! rid) as [[]|]; try discriminate.
    intros [= <- <-]. split; reflexivity.
  - unfold on_timeout. destruct (tasks st !! rid) as [[]|]; try discriminate.
    simpl. destruct (Qle_bool _ _); [|discriminate]. intros [= <- <-]. split; reflexivity.
  - unfold on_raise. destruct (tasks st !! rid) as [[]|]; try discriminate.
    intros [= <- <-]. split; reflexivity.
  - unfold on_tick. destruct (Qle_bool 0 d); [|discriminate]. intros [= <- <-]. split; reflexivity.
Qed.

Lemma run_config evs st st' :
  run evs st = Some st' ->
  cache_seconds st' = cache_seconds st /\
  build_timeout_seconds st' = build_timeout_seconds st.
Proof.
  revert st. induction evs as [|ev evs IH]; simpl; intros st.
  - intros [= <-]. split; reflexivity.
  - destruct (step ev st) as [[st1 r]|] eqn:E; [|discriminate]. simpl. intros Hrun.
    destruct (step_config _ _ _ _ E) as [<- <-]. now apply IH.
Qed.

(** ** The TTL test *)

Lemma _cache_valid_lt st now e :
  _cache_valid st now e = true <-> (now - ts e < inject_Z (cache_seconds st))%Q.
Proof. apply Qltb_lt. Qed.

Lemma _cache_valid_ge st now e :
  _cache_valid st now e = false <-> (inject_Z (cache_seconds st) <= now - ts e)%Q.
Proof. apply Qltb_ge. Qed.

Lemma cache_hit_Some st now o p :
  cache_hit st now o = Some p <->
  exists e, o = Some e /\ _cache_valid st now e = true /\ p = payload e.
Proof.
  unfold cache_hit. destruct o as [e|].
  - destruct (_cache_valid st now e) eqn:E; split.
    + intros [= <-]. eauto.
    + intros (e' & [= <-] & _ & ->). reflexivity.
    + discriminate.
    + intros (e' & [= <-] & ? & _). congruence.
  - split; [discriminate | intros (? & ? & _); discriminate].
Qed.

Lemma cache_hit_None st now o :
  cache_hit st now o = None <->
  forall e, o = Some e -> _cache_valid st now e = false.
Proof.
  unfold cache_hit. destruct o as [e|].
  - destruct (_cache_valid st now e) eqn:E; split.
    + discriminate.
    + intros H. specialize (H e eq_refl). congruence.
    + intros _ e' [= <-]. assumption.
    + reflexivity.
  - split; [intros _ e; discriminate | reflexivity].
Qed.

(** ** Stale entries under a build, when the wall clock does not step back *)

Lemma stale_step st ev st' r :
  inv st -> stale_while_building st -> clock_monotone st ev ->
  step ev st = Some (st', r) -> stale_while_building st'.
Proof.
  intros Hinv Hst Hmono.
  destruct ev as [k now1 now2 bot|rid m|rid g|rid now|rid|rid|d]; simpl.
  - destruct Hmono as [Hw1 Hw2].
    pose proof (handler_paths k now1 now2 bot st) as Hp.
    destruct (handler k now1 now2 bot st) as [st1 r1]. intros [= <- <-].
    assert (Hold : forall rid t k' e, tasks st !! rid = Some t -> building k' t ->
              _cache st !! k' = Some e -> (inject_Z (cache_seconds st) <= now2 - ts e)%Q).
    { intros rid t k' e Ht Hb He. specialize (Hst _ _ _ _ Ht Hb He). lra. }
    inversion Hp; subst; unfold stale_while_building; simpl; try exact Hold.
    intros rid t k' e. destruct (decide (rid = next_task st)) as [->|Hne].
    + rewrite lookup_insert_eq. intros [= <-] Hb He. simpl in Hb. subst k'.
      apply _cache_valid_ge. eapply cache_hit_None; eassumption.
    + rewrite lookup_insert_ne by congruence. apply Hold.
  - unfold on_member. destruct (tasks st !! rid) as [[k g acc s|]|] eqn:E; try discriminate.
    intros [= <- <-]. unfold stale_while_building; simpl. intros rid' t k' e.
    destruct (decide (rid' = rid)) as [->|Hne].
    + rewrite lookup_insert_eq. intros [= <-] Hb. eapply Hst; eassumption.
    + rewrite lookup_insert_ne by congruence. apply Hst.
  - unfold on_guild_update. destruct (tasks st !! rid) as [[k g0 acc s|]|] eqn:E; try discriminate.
    intros [= <- <-]. unfold stale_while_building; simpl. intros rid' t k' e.
    destruct (decide (rid' = rid)) as [->|Hne].
    + rewrite lookup_insert_eq. intros [= <-] Hb. eapply Hst; eassumption.
    + rewrite lookup_insert_ne by congruence. apply Hst.
  - unfold on_exhausted. destruct (tasks st !! rid) as [[k g acc s|]|] eqn:E; try discriminate.
    intros [= <- <-]. unfold stale_while_building; simpl. intros rid' t k' e.
    destruct (decide (rid' = rid)) as [->|Hne]; [now rewrite lookup_delete_eq|].
    rewrite lookup_delete_ne by congruence. intros Ht Hb.
    assert (k' <> k) as Hk.
    { intros ->. apply Hne. eapply (inv_single st Hinv); try eassumption. reflexivity. }
    rewrite lookup_insert_ne by congruence. intros He.
    specialize (Hst _ _ _ _ Ht Hb He). simpl in Hmono. lra.
  - unfold on_timeout. destruct (tasks st !! rid) as [[k g acc s|]|] eqn:E; try discriminate.
    simpl. destruct (Qle_bool _ _); [|discriminate]. intros [= <- <-].
    unfold stale_while_building; simpl. intros rid' t k' e.
    destruct (decide (rid' = rid)) as [->|Hne]; [now rewrite lookup_delete_eq|].
    rewrite lookup_delete_ne by congruence. apply Hst.
  - unfold on_raise. destruct (tasks st !! rid) as [[k g acc s|]|] eqn:E; try discriminate.
    intros [= <- <-].
    unfold stale_while_building; simpl. intros rid' t k' e.
    destruct (decide (rid' = rid)) as [->|Hne]; [now rewrite lookup_delete_eq|].
    rewrite lookup_delete_ne by congruence. apply Hst.
  - unfold on_tick. destruct (Qle_bool 0 d); [|discriminate]. intros [= <- <-]. exact Hst.
Qed.

Lemma reachable_mono_stale st : reachable_mono st -> stale_while_building st.
Proof.
  induction 1 as [cs bt|st ev st' r Hr IH Hm Hstep].
  - intros rid t k e H. simpl in H. now rewrite lookup_empty in H.
  - eapply stale_step; try eassumption.
    apply reachable_inv. now apply reachable_mono_reachable.
Qed.

(** ** The claims about one call of the handler *)

(** C8.  The effective TTL of an instance is [max(10, cache_seconds)] and its
    effective build deadline is [max(5, build_timeout_seconds)]; both are set
    by the constructor and no event of the loop changes them, so the TTL test
    and the timer use these values for the lifetime of the instance.
    Configuring a TTL of 1 gives an effective TTL of 10. *)
Theorem floors_fixed_at_construction (cs bt : Z) :
  cache_seconds (__init__ cs bt) = Z.max 10 cs /\
  build_timeout_seconds (__init__ cs bt) = Z.max 5 bt /\
  cache_seconds (__init__ 1 bt) = 10%Z /\
  forall evs,
    let st := exec evs (__init__ cs bt) in
    cache_seconds st = Z.max 10 cs /\
    build_timeout_seconds st = Z.max 5 bt /\
    (forall now e,
       _cache_valid st now e = Qltb (now - ts e) (inject_Z (Z.max 10 cs))) /\
    (forall started,
       deadline st started = (started + inject_Z (Z.max 5 bt))%Q).
Proof.
  repeat split; try reflexivity.
  all: unfold exec; destruct (run evs (__init__ cs bt)) as [st'|] eqn:E; simpl;
    try reflexivity; destruct (run_config _ _ _ E) as [Hc Hb].
  - exact Hc.
  - exact Hb.
  - intros now e. unfold _cache_valid. now rewrite Hc.
  - intros started. unfold deadline. now rewrite Hb.
Qed.

(** C9.  A request that is answered with the guild-not-found error leaves the
    cache store as it was: no entry is created for the key and an entry that
    is there (expired) is not replaced. *)
Theorem not_found_leaves_store st k now1 now2 bot st' body :
  step (EvRequest k now1 now2 bot) st = Some (st', Some (HTTPNotFound body)) ->
  bot (guild_id_of k) = None /\ _cache st' = _cache st.
Proof.
  simpl. pose proof (handler_paths k now1 now2 bot st) as Hp.
  destruct (handler k now1 now2 bot st) as [st1 r1]. intros [= <- ->].
  inversion Hp; subst. split; [assumption | reflexivity].
Qed.

(** C7.  A request that takes the lock reads the cache again before it
    builds.  When that second read finds a valid entry, its payload is the
    answer, the lock is taken and given back and the builder is not called;
    when it does not, the builder is called under the lock. *)
Theorem recheck_under_lock st k now1 now2 bot :
  cache_hit st now1 (_cache st !! k) = None ->
  ~ held st k ->
  (forall e, _cache st !! k = Some e -> _cache_valid st now2 e = true ->
     exists st',
       handler k now1 now2 bot st = (st', Some (json_response (payload e))) /\
       log st' = log st ++ [Acquire k; Release k] /\
       ~ held st' k /\ tasks st' = tasks st /\ _cache st' = _cache st) /\
  (cache_hit st now2 (_cache st !! k) = None ->
     exists st' r rest,
       handler k now1 now2 bot st = (st', r) /\
       log st' = log st ++ Acquire k :: BuildPayload k :: rest).
Proof.
  intros H1 Hfree. split.
  - intros e He Hv.
    assert (H2 : cache_hit st now2 (_cache st !! k) = Some (payload e)).
    { rewrite He. simpl. now rewrite Hv. }
    rewrite (handler_recheck _ _ _ _ _ _ H1 Hfree H2). eexists. split; [reflexivity|].
    simpl. rewrite <- app_assoc. repeat split; try reflexivity.
    unfold held. simpl. rewrite lookup_insert_eq. discriminate.
  - intros H2. destruct (bot (guild_id_of k)) as [g|] eqn:Hg.
    + rewrite (handler_build _ _ _ _ _ _ H1 Hfree H2 Hg). do 3 eexists.
      split; [reflexivity|]. simpl. rewrite <- app_assoc. reflexivity.
    + rewrite (handler_not_found _ _ _ _ _ H1 Hfree H2 Hg). do 3 eexists.
      split; [reflexivity|]. simpl. rewrite <- !app_assoc. reflexivity.
Qed.

(** C5, as amended.  For a key with a cached entry, the TTL test is the
    strict inequality [now - entry.ts < cache_seconds].  An entry that passes
    it at the first read is served; whatever is served from the cache is the
    entry and passed the test at the reading that served it, so it is younger
    than the TTL; an entry that fails it at both readings is never served:
    the request calls the builder when the lock of the key is free, and is
    answered 202 without a build when the lock is held. *)
Theorem served_iff_fresh st k now1 now2 bot e :
  _cache st !! k = Some e ->
  (forall now,
     _cache_valid st now e = true <->
     (now - ts e < inject_Z (cache_seconds st))%Q) /\
  ((now1 - ts e < inject_Z (cache_seconds st))%Q ->
   handler k now1 now2 bot st = (st, Some (json_response (payload e)))) /\
  (forall st' p,
     handler k now1 now2 bot st = (st', Some (json_response p)) ->
     p = payload e /\
     ((now1 - ts e < inject_Z (cache_seconds st))%Q \/
      (now2 - ts e < inject_Z (cache_seconds st))%Q)) /\
  ((inject_Z (cache_seconds st) <= now1 - ts e)%Q ->
   (inject_Z (cache_seconds st) <= now2 - ts e)%Q ->
   exists st' r,
     handler k now1 now2 bot st = (st', r) /\
     (forall p, r <> Some (json_response p)) /\
     (held st k -> st' = st /\ r = Some (HTTPAccepted (building_cache k))) /\
     (~ held st k ->
      exists rest, log st' = log st ++ Acquire k :: BuildPayload k :: rest)).
Proof.
  intros He. split; [intros; apply _cache_valid_lt|]. split; [|split].
  - intros Hlt. apply handler_hit. rewrite He. simpl.
    apply _cache_valid_lt in Hlt. now rewrite Hlt.
  - intros st' p Hh. pose proof (handler_paths k now1 now2 bot st) as Hp.
    rewrite Hh in Hp.
    inversion Hp as [p' Hc | | p' _ _ Hc | |]; subst;
      apply cache_hit_Some in Hc as (e' & He' & Hv & ->);
      rewrite He in He'; injection He' as <-;
      apply _cache_valid_lt in Hv; auto.
  - intros Hx1 Hx2.
    assert (H1 : cache_hit st now1 (_cache st !! k) = None).
    { apply cache_hit_None. intros e' He'. rewrite He in He'. injection He' as <-.
      now apply _cache_valid_ge. }
    assert (H2 : cache_hit st now2 (_cache st !! k) = None).
    { apply cache_hit_None. intros e' He'. rewrite He in He'. injection He' as <-.
      now apply _cache_valid_ge. }
    destruct (decide (held st k)) as [Hh|Hfree].
    { rewrite (handler_busy _ _ _ _ _ H1 Hh). do 2 eexists. split; [reflexivity|].
      split; [discriminate|]. split; [auto | tauto]. }
    destruct (bot (guild_id_of k)) as [g|] eqn:Hg.
    + rewrite (handler_build _ _ _ _ _ _ H1 Hfree H2 Hg). do 2 eexists.
      split; [reflexivity|]. split; [discriminate|]. split; [tauto|].
      intros _. eexists. simpl. rewrite <- app_assoc. reflexivity.
    + rewrite (handler_not_found _ _ _ _ _ H1 Hfree H2 Hg). do 2 eexists.
      split; [reflexivity|]. split; [discriminate|]. split; [tauto|].
      intros _. eexists. simpl. rewrite <- !app_assoc. reflexivity.
Qed.

(** C6, as amended.  When the guild lookup of a request fails, the request is
    answered with the not-found error; the lock of the key was taken before
    the lookup and is given back on the way out, once each, so the key is
    left unlocked and no build is left behind. *)
Theorem not_found_releases_lock st k now1 now2 bot :
  cache_hit st now1 (_cache st !! k) = None ->
  ~ held st k ->
  cache_hit st now2 (_cache st !! k) = None ->
  bot (guild_id_of k) = None ->
  exists st',
    handler k now1 now2 bot st = (st', Some (HTTPNotFound guild_not_found)) /\
    log st' = log st ++ [Acquire k; BuildPayload k; Release k] /\
    _locks st' !! k = Some false /\ tasks st' = tasks st.
Proof.
  intros H1 Hfree H2 Hg. rewrite (handler_not_found _ _ _ _ _ H1 Hfree H2 Hg).
  eexists. split; [reflexivity|]. simpl. rewrite <- !app_assoc.
  repeat split. apply lookup_insert_eq.
Qed.

(** C3.  A request for a key whose lock is held by a build in flight is
    answered at once, in the segment in which it arrived: the state is as it
    was, so nothing is parked in the loop and nothing waits on the lock; and
    no handler of the loop ever waits on a lock.  The answer is the 202
    whenever the first read of the cache finds no valid entry, which is so
    for every request when the wall clock does not step back; an entry
    that is valid at that read is served, the lock held or not. *)
Theorem busy_is_immediate st k now1 now2 bot :
  reachable st ->
  held st k ->
  match cache_hit st now1 (_cache st !! k) with
  | None =>
      handler k now1 now2 bot st = (st, Some (HTTPAccepted (building_cache k)))
  | Some p => handler k now1 now2 bot st = (st, Some (json_response p))
  end /\
  (reachable_mono st -> (wall st <= now1)%Q ->
   handler k now1 now2 bot st = (st, Some (HTTPAccepted (building_cache k)))) /\
  (forall rid k', tasks st !! rid <> Some (Blocked k')).
Proof.
  intros Hr Hh. pose proof (reachable_inv _ Hr) as Hinv.
  assert (Hmiss : cache_hit st now1 (_cache st !! k) = None ->
    handler k now1 now2 bot st = (st, Some (HTTPAccepted (building_cache k)))).
  { intros H1. now apply handler_busy. }
  split; [|split; [|apply (inv_unblocked _ Hinv)]].
  - destruct (cache_hit st now1 (_cache st !! k)) as [p|] eqn:H1.
    + apply (handler_hit _ _ _ _ _ _ H1).
    + apply Hmiss. reflexivity.
  - intros Hm Hw. apply Hmiss. apply cache_hit_None. intros e He.
    apply _cache_valid_ge.
    destruct (inv_held_build _ Hinv _ Hh) as (rid & t & Ht & Hb).
    pose proof (reachable_mono_stale _ Hm _ _ _ _ Ht Hb He). lra.
Qed.

(** ** The claims about the loop *)

(** What one event does to the handlers that are parked. *)
Lemma step_tasks ev st st' r rid :
  step ev st = Some (st', r) ->
  tasks st' !! rid = tasks st !! rid
  \/ (exists k now1 now2 bot guild,
        ev = EvRequest k now1 now2 bot /\ rid = next_task st /\ ~ held st k /\
        tasks st' !! rid = Some (Scanning k guild [] (loop_time st)) /\
        log st' = log st ++ [Acquire k; BuildPayload k] /\ _cache st' = _cache st)
  \/ (exists k g acc s g' acc',
        tasks st !! rid = Some (Scanning k g acc s) /\
        tasks st' !! rid = Some (Scanning k g' acc' s) /\
        log st' = log st /\ _cache st' = _cache st /\ _locks st' = _locks st)
  \/ (exists k g acc s mid,
        tasks st !! rid = Some (Scanning k g acc s) /\
        tasks st' !! rid = None /\
        (ev = EvTimeout rid \/ ev = EvRaise rid \/ exists now, ev = EvExhausted rid now) /\
        (exists resp, r = Some resp) /\
        log st' = log st ++ mid ++ [Release k] /\
        (mid = [] \/ mid = [CachePut k]) /\
        _locks st' = <[k := false]> (_locks st)).
Proof.
  destruct ev as [k now1 now2 bot|rid' m|rid' g|rid' now|rid'|rid'|d]; simpl.
  - pose proof (handler_paths k now1 now2 bot st) as Hp.
    destruct (handler k now1 now2 bot st) as [st1 r1]. intros [= <- <-].
    inversion Hp; subst; simpl; auto.
    destruct (decide (rid = next_task st)) as [->|Hne].
    + right; left. exists k, now1, now2, bot, guild. rewrite lookup_insert_eq.
      rewrite <- app_assoc. auto 10.
    + left. now rewrite lookup_insert_ne by congruence.
  - unfold on_member. destruct (tasks st !! rid') as [[k g acc s|]|] eqn:E; try discriminate.
    intros [= <- <-]. simpl. destruct (decide (rid = rid')) as [->|Hne].
    + right; right; left. exists k, g, acc, s, g, (scan_body k m acc).
      rewrite lookup_insert_eq. auto 10.
    + left. now rewrite lookup_insert_ne by congruence.
  - unfold on_guild_update. destruct (tasks st !! rid') as [[k g0 acc s|]|] eqn:E; try discriminate.
    intros [= <- <-]. simpl. destruct (decide (rid = rid')) as [->|Hne].
    + right; right; left. exists k, g0, acc, s, g, acc.
      rewrite lookup_insert_eq. auto 10.
    + left. now rewrite lookup_insert_ne by congruence.
  - unfold on_exhausted. destruct (tasks st !! rid') as [[k g acc s|]|] eqn:E; try discriminate.
    intros [= <- <-]. simpl. destruct (decide (rid = rid')) as [->|Hne].
    + right; right; right. exists k, g, acc, s, [CachePut k].
      rewrite lookup_delete_eq, <- app_assoc. eauto 12.
    + left. now rewrite lookup_delete_ne by congruence.
  - unfold on_timeout. destruct (tasks st !! rid') as [[k g acc s|]|] eqn:E; try discriminate.
    simpl. destruct (Qle_bool _ _); [|discriminate]. intros [= <- <-]. simpl.
    destruct (decide (rid = rid')) as [->|Hne].
    + right; right; right. exists k, g, acc, s, [].
      rewrite lookup_delete_eq. eauto 12.
    + left. now rewrite lookup_delete_ne by congruence.
  - unfold on_raise. destruct (tasks st !! rid') as [[k g acc s|]|] eqn:E; try discriminate.
    intros [= <- <-]. simpl. destruct (decide (rid = rid')) as [->|Hne].
    + right; right; right. exists k, g, acc, s, [].
      rewrite lookup_delete_eq. eauto 12.
    + left. now rewrite lookup_delete_ne by congruence.
  - unfold on_tick. destruct (Qle_bool 0 d); [|discriminate]. intros [= <- <-]. now left.
Qed.

(** A lock is taken only by a request for its key that finds it free. *)
Lemma step_acquire ev st st' r k :
  step ev st = Some (st', r) ->
  acquired k (log st') = acquired k (log st)
  \/ (acquired k (log st') = S (acquired k (log st)) /\ ~ held st k /\
      exists now1 now2 bot, ev = EvRequest k now1 now2 bot).
Proof.
  destruct ev as [k' now1 now2 bot|rid' m|rid' g|rid' now|rid'|rid'|d]; simpl.
  - pose proof (handler_paths k' now1 now2 bot st) as Hp.
    destruct (handler k' now1 now2 bot st) as [st1 r1]. intros [= <- <-].
    inversion Hp; subst; simpl; auto;
      (destruct (decide (k' = k)) as [->|Hne];
       [right; split; [count_log; repeat case_decide; simplify_eq; lia|eauto 6]
       |left; count_log; repeat case_decide; simplify_eq; lia]).
  - unfold on_member. destruct (tasks st !! rid') as [[]|]; try discriminate.
    intros [= <- <-]. now left.
  - unfold on_guild_update. destruct (tasks st !! rid') as [[]|]; try discriminate.
    intros [= <- <-]. now left.
  - unfold on_exhausted. destruct (tasks st !! rid') as [[]|]; try discriminate.
    intros [= <- <-]. left. simpl. count_log. repeat case_decide; simplify_eq; lia.
  - unfold on_timeout. destruct (tasks st !! rid') as [[]|]; try discriminate.
    simpl. destruct (Qle_bool _ _); [|discriminate]. intros [= <- <-].
    left. simpl. count_log. repeat case_decide; simplify_eq; lia.
  - unfold on_raise. destruct (tasks st !! rid') as [[]|]; try discriminate.
    intros [= <- <-]. left. simpl. count_log. repeat case_decide; simplify_eq; lia.
  - unfold on_tick. destruct (Qle_bool 0 d); [|discriminate]. intros [= <- <-]. now left.
Qed.

Lemma building_scanning t k :
  building k t <-> exists g acc s, t = Scanning k g acc s.
Proof.
  destruct t as [k' g acc s|k']; simpl; split.
  - intros ->. eauto.
  - intros (? & ? & ? & [= -> _ _ _]). reflexivity.
  - tauto.
  - intros (? & ? & ? & [=]).
Qed.

(** C1.  In every state of the loop at most one handler is inside the build
    phase of a key, and the lock of a key is held exactly while a build for
    it is in flight.  The lock of a key is taken only by a request for the
    key that arrives while the lock is free, that is, while no build for the
    key is in flight; and a build is parked in the loop only by such a
    request.  Builds for one key therefore follow one another in the order in
    which they took the lock, and never overlap. *)
Theorem single_flight st :
  reachable st ->
  (forall rid1 rid2 t1 t2 k,
     tasks st !! rid1 = Some t1 -> tasks st !! rid2 = Some t2 ->
     building k t1 -> building k t2 -> rid1 = rid2) /\
  (forall k,
     held st k <-> exists rid t, tasks st !! rid = Some t /\ building k t) /\
  (forall ev st' r k,
     step ev st = Some (st', r) ->
     acquired k (log st') <> acquired k (log st) ->
     acquired k (log st') = S (acquired k (log st)) /\
     ~ held st k /\
     (forall rid0 t0, tasks st !! rid0 = Some t0 -> ~ building k t0)) /\
  (forall ev st' r rid t k,
     step ev st = Some (st', r) ->
     tasks st !! rid = None -> tasks st' !! rid = Some t -> building k t ->
     log st' = log st ++ [Acquire k; BuildPayload k] /\
     acquired k (log st') = S (acquired k (log st))).
Proof.
  intros Hr. pose proof (reachable_inv _ Hr) as Hinv. split; [|split; [|split]].
  - apply (inv_single _ Hinv).
  - intros k. split; [apply (inv_held_build _ Hinv)|].
    intros (rid & t & Ht & Hb). eapply (inv_build_held _ Hinv); eassumption.
  - intros ev st' r k Hstep Hne.
    destruct (step_acquire _ _ _ _ k Hstep) as [E|(E & Hfree & _)]; [congruence|].
    split; [assumption|]. split; [assumption|].
    intros rid0 t0 Ht0 Hb0. apply Hfree. eapply (inv_build_held _ Hinv); eassumption.
  - intros ev st' r rid t k Hstep Hnone Hsome Hb.
    destruct (step_tasks _ _ _ _ rid Hstep) as
      [E|[(k' & n1 & n2 & bot & g & -> & -> & Hfree & Ht & Hlog & _)
         |[(k' & g & acc & s & g' & acc' & Ht & _)|(k' & g & acc & s & mid & Ht & _)]]];
      try congruence.
    rewrite Hsome in Ht. injection Ht as ->. simpl in Hb. subst k'.
    split; [assumption|]. rewrite Hlog. count_log.
    repeat case_decide; simplify_eq; lia.
Qed.

(** A handler that leaves gives the lock of its key back. *)
Lemma step_gives_back ev st st' r rid k g acc s :
  step ev st = Some (st', r) ->
  tasks st !! rid = Some (Scanning k g acc s) -> tasks st' !! rid = None ->
  gives_back rid k st st'.
Proof.
  intros Hstep Ht Hgone. split; [assumption|].
  destruct (step_tasks _ _ _ _ rid Hstep) as
    [E|[(k' & n1 & n2 & bot & g0 & _ & _ & _ & Ht' & _)
       |[(k' & g0 & acc0 & s0 & g' & acc' & _ & Ht' & _)
        |(k' & g0 & acc0 & s0 & mid & Ht' & _ & _ & _ & Hlog & Hmid & Hlk)]]];
    try congruence.
  rewrite Ht in Ht'. injection Ht' as <- <- <- <-.
  rewrite Hlog. unfold held. rewrite Hlk, lookup_insert_eq.
  destruct Hmid as [-> | ->]; count_log; repeat case_decide; simplify_eq;
    repeat split; try lia; discriminate.
Qed.

(** C4.  The lock of a key is given back exactly once for each time it is
    taken.  A held lock belongs to a build in flight; the success, the
    timeout and the error exit of that build each answer, end the handler
    and give the lock back, and so does the not-found exit of a request.
    The timer of a build is armed once: whatever the loop does, the build
    has either left and given the lock back, or is parked with the deadline
    it started with; and as soon as the deadline is reached the timeout exit
    is open, members or no members, so no key stays locked. *)
Theorem lock_released_on_every_exit st :
  reachable st ->
  (forall k,
     acquired k (log st) =
     released k (log st) + (if decide (held st k) then 1 else 0)) /\
  (forall k, held st k ->
     exists rid guild acc started,
       tasks st !! rid = Some (Scanning k guild acc started) /\
       (started <= loop_time st)%Q) /\
  (forall rid k guild acc started,
     tasks st !! rid = Some (Scanning k guild acc started) ->
     (forall now, exists st',
        step (EvExhausted rid now) st =
          Some (st', Some (json_response (make_payload k guild acc))) /\
        gives_back rid k st st') /\
     ((deadline st started <= loop_time st)%Q -> exists st',
        step (EvTimeout rid) st =
          Some (st', Some (HTTPAccepted (building_cache k))) /\
        gives_back rid k st st') /\
     (exists st',
        step (EvRaise rid) st = Some (st', Some HTTPInternalServerError) /\
        gives_back rid k st st') /\
     (forall d, (0 <= d)%Q -> (deadline st started <= loop_time st + d)%Q ->
        exists st',
          run [EvTick d; EvTimeout rid] st = Some st' /\ gives_back rid k st st') /\
     (forall ev st' r, step ev st = Some (st', r) ->
        gives_back rid k st st' \/
        exists guild' acc',
          tasks st' !! rid = Some (Scanning k guild' acc' started) /\ held st' k)) /\
  (forall k now1 now2 bot st' body,
     step (EvRequest k now1 now2 bot) st = Some (st', Some (HTTPNotFound body)) ->
     released k (log st') = S (released k (log st)) /\
     acquired k (log st') = S (acquired k (log st)) /\
     ~ held st' k).
Proof.
  intros Hr. pose proof (reachable_inv _ Hr) as Hinv.
  split; [apply (inv_balance _ Hinv)|]. split; [|split].
  - intros k Hk. destruct (inv_held_build _ Hinv _ Hk) as (rid & t & Ht & Hb).
    apply building_scanning in Hb as (g & acc & s & ->).
    exists rid, g, acc, s. split; [assumption|]. apply (inv_timer _ Hinv _ _ _ _ _ Ht).
  - intros rid k g acc s Ht.
    assert (Hto : forall st0, tasks st0 !! rid = Some (Scanning k g acc s) ->
              (deadline st0 s <= loop_time st0)%Q ->
              step (EvTimeout rid) st0 =
                Some (release k (reap rid st0), Some (HTTPAccepted (building_cache k)))).
    { intros st0 Ht0 Hd. simpl. unfold on_timeout. rewrite Ht0.
      apply Qle_bool_iff in Hd. rewrite Hd. reflexivity. }
    split; [|split; [|split; [|split]]].
    + intros now.
      assert (Hs : step (EvExhausted rid now) st =
        Some (set_wall now (release k (emit (CachePut k)
                (set_cache (<[k := {| ts := now; payload := make_payload k g acc |}]>
                              (_cache (reap rid st))) (reap rid st)))),
              Some (json_response (make_payload k g acc)))).
      { simpl. unfold on_exhausted. rewrite Ht. reflexivity. }
      eexists. split; [exact Hs|].
      eapply step_gives_back; [exact Hs | exact Ht | apply lookup_delete_eq].
    + intros Hd. eexists. split; [exact (Hto st Ht Hd)|].
      eapply step_gives_back; [exact (Hto st Ht Hd) | exact Ht | apply lookup_delete_eq].
    + assert (Hs : step (EvRaise rid) st =
        Some (release k (reap rid st), Some HTTPInternalServerError)).
      { simpl. unfold on_raise. rewrite Ht. reflexivity. }
      eexists. split; [exact Hs|].
      eapply step_gives_back; [exact Hs | exact Ht | apply lookup_delete_eq].
    + intros d Hd0 Hd.
      assert (Htick : step (EvTick d) st =
                Some (set_loop_time (loop_time st + d)%Q st, None)).
      { simpl. unfold on_tick. apply Qle_bool_iff in Hd0. rewrite Hd0. reflexivity. }
      pose proof (Hto (set_loop_time (loop_time st + d)%Q st) Ht Hd) as Hs.
      exists (release k (reap rid (set_loop_time (loop_time st + d)%Q st))). split.
      * cbn [run]. rewrite Htick. cbn [mbind option_bind]. rewrite Hs. reflexivity.
      * exact (step_gives_back _ _ _ _ _ _ _ _ _ Hs Ht (lookup_delete_eq _ _)).
    + intros ev st' r Hstep.
      destruct (step_tasks _ _ _ _ rid Hstep) as
        [E|[(k' & n1 & n2 & bot & g0 & _ & -> & _)
           |[(k' & g0 & acc0 & s0 & g' & acc' & Ht0 & Ht' & _)
            |(k' & g0 & acc0 & s0 & mid & _ & Hgone & _)]]].
      * right. exists g, acc. rewrite E. split; [assumption|].
        apply (inv_build_held _ (inv_step _ _ _ _ Hinv Hstep) rid (Scanning k g acc s));
          [now rewrite E | reflexivity].
      * rewrite (inv_fresh _ Hinv) in Ht by lia. discriminate.
      * rewrite Ht in Ht0. injection Ht0 as <- <- <- <-. right. exists g', acc'.
        split; [assumption|].
        apply (inv_build_held _ (inv_step _ _ _ _ Hinv Hstep) rid
                 (Scanning k g' acc' s)); [assumption | reflexivity].
      * left. eapply step_gives_back; eassumption.
  - intros k now1 now2 bot st' body. simpl.
    pose proof (handler_paths k now1 now2 bot st) as Hp.
    destruct (handler k now1 now2 bot st) as [st1 r1]. intros [= <- ->].
    inversion Hp; subst. unfold held. simpl. rewrite lookup_insert_eq.
    count_log. repeat case_decide; simplify_eq; repeat split; try lia; discriminate.
Qed.

(** The store is written by the success exit of a build and by nothing
    else. *)
Lemma step_cache ev st st' r :
  step ev st = Some (st', r) ->
  _cache st' = _cache st
  \/ exists rid k g acc s now,
       ev = EvExhausted rid now /\
       tasks st !! rid = Some (Scanning k g acc s) /\
       _cache st' =
         <[k := {| ts := now; payload := make_payload k g acc |}]> (_cache st).
Proof.
  destruct ev as [k now1 now2 bot|rid' m|rid' g|rid' now|rid'|rid'|d]; simpl.
  - pose proof (handler_paths k now1 now2 bot st) as Hp.
    destruct (handler k now1 now2 bot st) as [st1 r1]. intros [= <- <-].
    inversion Hp; subst; now left.
  - unfold on_member. destruct (tasks st !! rid') as [[]|]; try discriminate.
    intros [= <- <-]. now left.
  - unfold on_guild_update. destruct (tasks st !! rid') as [[]|]; try discriminate.
    intros [= <- <-]. now left.
  - unfold on_exhausted. destruct (tasks st !! rid') as [[k g acc s|]|] eqn:E; try discriminate.
    intros [= <- <-]. right. exists rid', k, g, acc, s, now. auto.
  - unfold on_timeout. destruct (tasks st !! rid') as [[]|]; try discriminate.
    simpl. destruct (Qle_bool _ _); [|discriminate]. intros [= <- <-]. now left.
  - unfold on_raise. destruct (tasks st !! rid') as [[]|]; try discriminate.
    intros [= <- <-]. now left.
  - unfold on_tick. destruct (Qle_bool 0 d); [|discriminate]. intros [= <- <-]. now left.
Qed.

Lemma step_next_task ev st st' r :
  step ev st = Some (st', r) -> next_task st <= next_task st'.
Proof.
  destruct ev as [k now1 now2 bot|rid' m|rid' g|rid' now|rid'|rid'|d]; simpl.
  - pose proof (handler_paths k now1 now2 bot st) as Hp.
    destruct (handler k now1 now2 bot st) as [st1 r1]. intros [= <- <-].
    inversion Hp; subst; simpl; lia.
  - unfold on_member. destruct (tasks st !! rid') as [[]|]; try discriminate.
    intros [= <- <-]. reflexivity.
  - unfold on_guild_update. destruct (tasks st !! rid') as [[]|]; try discriminate.
    intros [= <- <-]. reflexivity.
  - unfold on_exhausted. destruct (tasks st !! rid') as [[]|]; try discriminate.
    intros [= <- <-]. reflexivity.
  - unfold on_timeout. destruct (tasks st !! rid') as [[]|]; try discriminate.
    simpl. destruct (Qle_bool _ _); [|discriminate]. intros [= <- <-]. reflexivity.
  - unfold on_raise. destruct (tasks st !! rid') as [[]|]; try discriminate.
    intros [= <- <-]. reflexivity.
  - unfold on_tick. destruct (Qle_bool 0 d); [|discriminate]. intros [= <- <-]. reflexivity.
Qed.

Lemma parked_step rid k c ev st st' r :
  inv st -> parked_or_gone rid k c st -> step ev st = Some (st', r) ->
  parked_or_gone rid k c st'.
Proof.
  intros Hinv [Hlt Hcase] Hstep.
  split; [pose proof (step_next_task _ _ _ _ Hstep); lia|].
  destruct (step_tasks _ _ _ _ rid Hstep) as
    [E|[(k' & n1 & n2 & bot & g & _ & -> & _)
       |[(k' & g & acc & s & g' & acc' & Ht & Ht' & _ & Hc & _)
        |(k' & g & acc & s & mid & Ht & Ht' & _)]]].
  - destruct Hcase as [Hnone|(t & Ht & Hb & Hc)]; [left; congruence|].
    right. exists t. split; [congruence|]. split; [assumption|].
    destruct (step_cache _ _ _ _ Hstep) as [->|(rid' & k' & g & acc & s & now & -> & Ht' & ->)];
      [assumption|].
    destruct (decide (k' = k)) as [->|Hne]; [|now rewrite lookup_insert_ne].
    assert (rid' = rid) as ->.
    { eapply (inv_single _ Hinv); try eassumption. reflexivity. }
    exfalso. revert E. simpl. unfold on_exhausted in Hstep. simpl in Hstep.
    unfold on_exhausted in Hstep. rewrite Ht' in Hstep. simpl in Hstep.
    injection Hstep as <- _. simpl. rewrite lookup_delete_eq. congruence.
  - lia.
  - destruct Hcase as [Hnone|(t & Ht0 & Hb & Hc0)]; [congruence|].
    right. eexists. split; [eassumption|]. rewrite Ht in Ht0. injection Ht0 as <-.
    simpl in Hb. split; [exact Hb | congruence].
  - now left.
Qed.

Lemma parked_run rid k c evs st st' :
  reachable st -> parked_or_gone rid k c st -> run evs st = Some st' ->
  parked_or_gone rid k c st'.
Proof.
  revert st. induction evs as [|ev evs IH]; simpl; intros st Hr Hp.
  - now intros [= <-].
  - destruct (step ev st) as [[st1 r]|] eqn:E; [|discriminate]. simpl.
    apply IH.
    + eapply reachable_step; eassumption.
    + eapply parked_step; try eassumption. now apply reachable_inv.
Qed.

(** C2.  A build attempt that ends in the timeout leaves the entry of its
    key as it was when the attempt began, whatever else the loop did in
    between, and the timeout itself leaves the whole store as it is.  The
    answer is the 202 body and the state after the timeout is the same
    whatever the scan had accumulated: the partial list is dropped with the
    handler. *)
Theorem timeout_leaves_store st0 k now1 now2 bot st1 evs st2 st3 r :
  reachable st0 ->
  step (EvRequest k now1 now2 bot) st0 = Some (st1, None) ->
  run evs st1 = Some st2 ->
  step (EvTimeout (next_task st0)) st2 = Some (st3, r) ->
  _cache st3 !! k = _cache st0 !! k /\
  _cache st3 = _cache st2 /\
  r = Some (HTTPAccepted (building_cache k)) /\
  tasks st3 !! next_task st0 = None /\
  exists guild acc started,
    tasks st2 !! next_task st0 = Some (Scanning k guild acc started) /\
    forall acc',
      step (EvTimeout (next_task st0))
        (set_tasks (<[next_task st0 := Scanning k guild acc' started]> (tasks st2)) st2)
      = Some (st3, r).
Proof.
  intros Hr Hstep0 Hrun Hto.
  pose proof (handler_paths k now1 now2 bot st0) as Hp.
  assert (Hr1 : reachable st1) by (eapply reachable_step; eassumption).
  simpl in Hstep0. destruct (handler k now1 now2 bot st0) as [st1' r1].
  injection Hstep0 as <- ->.
  inversion Hp as [| | | |guild H1 Hfree H2 Hg Hst1]; subst.
  set (rid := next_task st0) in *.
  assert (Hpark : parked_or_gone rid k (_cache st0 !! k) st2).
  { eapply parked_run; [exact Hr1| |eassumption].
    split; [simpl; lia|]. right. simpl. rewrite lookup_insert_eq.
    eexists. split; [reflexivity|]. split; reflexivity. }
  simpl in Hto. unfold on_timeout in Hto.
  destruct Hpark as [_ [Hnone|(t & Ht & Hb & Hc)]]; [now rewrite Hnone in Hto|].
  apply building_scanning in Hb as (g & acc & s & ->). rewrite Ht in Hto.
  destruct (Qle_bool _ _) eqn:Hd; [|discriminate]. injection Hto as <- <-.
  simpl. split; [assumption|]. split; [reflexivity|]. split; [reflexivity|].
  split; [apply lookup_delete_eq|].
  exists g, acc, s. split; [exact Ht|]. intros acc'.
  unfold on_timeout. simpl. rewrite lookup_insert_eq.
  unfold deadline in *. simpl. rewrite Hd. simpl.
  unfold release, reap. simpl. now rewrite delete_insert_eq.
Qed.

(** The scan of a parked build consumes the members it is given, in order. *)
Lemma run_members ms : forall st rid k g acc s,
  tasks st !! rid = Some (Scanning k g acc s) ->
  exists st',
    run (map (EvMember rid) ms) st = Some st' /\
    tasks st' !! rid =
      Some (Scanning k g (fold_left (fun a m => scan_body k m a) ms acc) s).
Proof.
  induction ms as [|m ms IH]; simpl; intros st rid k g acc s Ht.
  - eauto.
  - unfold on_member. rewrite Ht. simpl.
    apply IH. simpl. apply lookup_insert_eq.
Qed.

End ServiceFacts.

(** ** The role-members payload *)

Lemma role_members_scan cache_key ms : forall acc,
  fold_left (fun a m => RoleMembers._scan cache_key m a) ms acc =
  acc ++ RoleMembers.matches (snd cache_key) ms.
Proof.
  unfold RoleMembers.matches. induction ms as [|m ms IH]; simpl; intros acc.
  - now rewrite app_nil_r.
  - rewrite IH. unfold RoleMembers._scan.
    destruct (existsb _ (Member.roles m)); simpl; [|reflexivity].
    now rewrite <- app_assoc.
Qed.

(** C10.  A role-members request that starts a build, whose scan is fed the
    members [ms] and completes, and whose guild does not know the role, is
    answered 200 and cached: [role_name] is the string "unknown", [count]
    and [members] are the number and the ids of the members of [ms] that have
    the role, in order. *)
Theorem unknown_role_name (guild_id role_id : Z) now1 now2 bot
    st st1 guild ms now3 :
  step (EvRequest (F := RoleMembers.feature) (guild_id, role_id) now1 now2 bot) st
    = Some (st1, None) ->
  bot guild_id = Some guild ->
  Guild.get_role guild role_id = None ->
  exists st2 st3 p,
    run (map (EvMember (next_task st)) ms) st1 = Some st2 /\
    step (EvExhausted (next_task st) now3) st2 =
      Some (st3, Some (json_response p)) /\
    _cache st3 !! (guild_id, role_id) = Some {| ts := now3; payload := p |} /\
    field "role_name" p = Some (JStr "unknown") /\
    field "count" p = Some (JInt (Z.of_nat (length (RoleMembers.matches role_id ms)))) /\
    field "members" p =
      Some (JList (map (fun mid => JDict [("discord_user_id", JStr mid)])
                     (RoleMembers.matches role_id ms))).
Proof.
  simpl. intros Hstep Hg Hrole.
  pose proof (handler_paths (F := RoleMembers.feature)
                ((guild_id, role_id) : RoleMembers.CacheKey) now1 now2 bot st) as Hp.
  destruct (handler _ now1 now2 bot st) as [st0 r0]. injection Hstep as <- ->.
  inversion Hp as [| | | |guild' H1 Hfree H2 Hg' Hst1]; subst.
  simpl in Hg'. rewrite Hg in Hg'. injection Hg' as <-.
  match goal with |- context [run _ ?s] => set (st1 := s) end.
  assert (Ht0 : tasks st1 !! next_task st =
                Some (Scanning (F := RoleMembers.feature)
                        (guild_id, role_id) guild [] (loop_time st))).
  { simpl. apply lookup_insert_eq. }
  destruct (run_members ms _ _ _ _ _ _ Ht0) as (st2 & Hrun & Ht).
  exists st2. rewrite Hrun. simpl in Ht. rewrite role_members_scan in Ht. simpl in Ht.
  unfold on_exhausted. rewrite Ht. simpl. do 2 eexists. split; [reflexivity|].
  split; [reflexivity|]. split; [apply lookup_insert_eq|].
  unfold RoleMembers._payload, RoleMembers.role_name_of. simpl.
  rewrite Hrole. repeat split.
Qed.

(** ** The scenarios of the specification, run *)

(** Two requests for one key on a fresh instance: the first is parked in its
    scan, the second is answered 202. *)
Example scenario_two_requests :
  answer (EvRequest Sample.key 0 0 Sample.bot) Sample.fresh = Some None /\
  tasks Sample.building_first !! 0 = Some (Scanning Sample.key Sample.guild [] 0) /\
  answer (EvRequest Sample.key 0 0 Sample.bot) Sample.building_first =
    Some (Some (HTTPAccepted (JDict [("status", JStr "building_cache");
                                     ("guild_id", JStr "7");
                                     ("role_id", JStr "3")]))).
Proof.
  split; [vm_compute; reflexivity|]. split; [reflexivity|].
  vm_compute; reflexivity.
Qed.

(** TTL 10, entry of time 0: at time 9 the entry is served, at time 10 and at
    time 11 a build is started. *)
Example scenario_ttl_boundary :
  answer (EvRequest Sample.key 9 9 Sample.bot) Sample.cached =
    Some (Some (json_response
            (JDict [("guild_id", JStr "7"); ("guild_name", JStr "lab");
                    ("role_id", JStr "3"); ("role_name", JStr "vip");
                    ("count", JInt 1);
                    ("members", JList [JDict [("discord_user_id", JStr "42")]])]))) /\
  answer (EvRequest Sample.key 10 10 Sample.bot) Sample.cached = Some None /\
  answer (EvRequest Sample.key 11 11 Sample.bot) Sample.cached = Some None /\
  tasks Sample.rebuilding !! 1 = Some (Scanning Sample.key Sample.guild [] 0).
Proof.
  split; [vm_compute; reflexivity|]. split; [vm_compute; reflexivity|].
  split; [vm_compute; reflexivity|]. reflexivity.
Qed.

(** Deadline 5, a scan that never yields: the timeout is not enabled before
    5, and at 5 it answers 202 and leaves the key unlocked and the store
    empty. *)
Example scenario_stalled_scan :
  answer (EvTimeout 0) (exec [EvTick 4] Sample.building_first) = None /\
  answer (EvTimeout 0) (exec [EvTick 5] Sample.building_first) =
    Some (Some (HTTPAccepted (JDict [("status", JStr "building_cache");
                                     ("guild_id", JStr "7");
                                     ("role_id", JStr "3")]))) /\
  _locks (exec [EvTick 5; EvTimeout 0] Sample.building_first) !! Sample.key =
    Some false /\
  _cache (exec [EvTick 5; EvTimeout 0] Sample.building_first) !! Sample.key = None.
Proof. repeat split; vm_compute; reflexivity. Qed.

(** The boosters feature on the same loop: the members with [premium_since]
    are listed, in order. *)
Example scenario_boosters :
  _cache
    (exec [EvRequest (F := Subscriptions.feature) 7%Z 0 0 Sample.bot;
           EvMember 0 Sample.alice; EvMember 0 Sample.dave; EvExhausted 0 2]
       (__init__ 300 25)) !! 7%Z =
    Some {| ts := 2;
            payload :=
              JDict [("guild_id", JStr "7"); ("guild_name", JStr "lab");
                     ("count", JInt 1);
                     ("boosters",
                      JList [JDict [("discord_user_id", JStr "45");
                                    ("username", JStr "dave");
                                    ("display_name", JStr "Dave");
                                    ("premium_since",
                                     JStr "2024-05-01T12:00:00+00:00")]])] |}.
Proof. vm_compute; reflexivity. Qed.

(** ** The theorems at work in the sample world *)

(** C1 at the state in which the first build is in flight. *)
Lemma single_flight_witness :
  reachable Sample.building_first /\
  (forall rid1 rid2 t1 t2 k,
     tasks Sample.building_first !! rid1 = Some t1 ->
     tasks Sample.building_first !! rid2 = Some t2 ->
     building k t1 -> building k t2 -> rid1 = rid2) /\
  (forall k,
     held Sample.building_first k <->
     exists rid t, tasks Sample.building_first !! rid = Some t /\ building k t) /\
  (forall ev st' r k,
     step ev Sample.building_first = Some (st', r) ->
     acquired k (log st') <> acquired k (log Sample.building_first) ->
     acquired k (log st') = S (acquired k (log Sample.building_first)) /\
     ~ held Sample.building_first k /\
     (forall rid0 t0,
        tasks Sample.building_first !! rid0 = Some t0 -> ~ building k t0)) /\
  (forall ev st' r rid t k,
     step ev Sample.building_first = Some (st', r) ->
     tasks Sample.building_first !! rid = None ->
     tasks st' !! rid = Some t -> building k t ->
     log st' = log Sample.building_first ++ [Acquire k; BuildPayload k] /\
     acquired k (log st') = S (acquired k (log Sample.building_first))).
Proof.
  assert (H : reachable Sample.building_first)
    by apply exec_reachable, reachable_init.
  split; [exact H | exact (single_flight _ H)].
Defined.

(** C2: the second build for [Sample.key] starts at time 11 over the expired
    entry, the loop goes through [Sample.meanwhile], the build times out; the
    entry of the key is the one of time 0. *)
Lemma timeout_leaves_store_witness :
  reachable Sample.cached /\
  step (EvRequest Sample.key 11 11 Sample.bot) Sample.cached =
    Some (Sample.rebuilding, None) /\
  run Sample.meanwhile Sample.rebuilding =
    Some (exec Sample.meanwhile Sample.rebuilding) /\
  step (EvTimeout (next_task Sample.cached)) (exec Sample.meanwhile Sample.rebuilding)
    = Some (Sample.timed_out, Some (HTTPAccepted (building_cache Sample.key))) /\
  _cache Sample.timed_out !! Sample.key = _cache Sample.cached !! Sample.key /\
  _cache Sample.timed_out = _cache (exec Sample.meanwhile Sample.rebuilding) /\
  Some (HTTPAccepted (building_cache Sample.key)) =
    Some (HTTPAccepted (building_cache Sample.key)) /\
  tasks Sample.timed_out !! next_task Sample.cached = None /\
  exists guild acc started,
    tasks (exec Sample.meanwhile Sample.rebuilding) !! next_task Sample.cached =
      Some (Scanning Sample.key guild acc started) /\
    forall acc',
      step (EvTimeout (next_task Sample.cached))
        (set_tasks
           (<[next_task Sample.cached := Scanning Sample.key guild acc' started]>
              (tasks (exec Sample.meanwhile Sample.rebuilding)))
           (exec Sample.meanwhile Sample.rebuilding))
      = Some (Sample.timed_out, Some (HTTPAccepted (building_cache Sample.key))).
Proof.
  assert (H0 : reachable Sample.cached) by apply exec_reachable, reachable_init.
  assert (H1 : step (EvRequest Sample.key 11 11 Sample.bot) Sample.cached =
               Some (Sample.rebuilding, None))
    by (apply step_exec; vm_compute; reflexivity).
  assert (H2 : run Sample.meanwhile Sample.rebuilding =
               Some (exec Sample.meanwhile Sample.rebuilding))
    by (apply run_exec; vm_compute; reflexivity).
  assert (H3 : step (EvTimeout (next_task Sample.cached))
                 (exec Sample.meanwhile Sample.rebuilding)
               = Some (Sample.timed_out,
                       Some (HTTPAccepted (building_cache Sample.key))))
    by (apply (step_exec (EvTimeout 1)); vm_compute; reflexivity).
  split; [exact H0|]. split; [exact H1|]. split; [exact H2|]. split; [exact H3|].
  exact (timeout_leaves_store _ _ _ _ _ _ _ _ _ _ H0 H1 H2 H3).
Defined.

(** C3: a request for [Sample.key] at time 1, while the first build is in
    flight. *)
Lemma busy_is_immediate_witness :
  reachable Sample.building_first /\
  held Sample.building_first Sample.key /\
  reachable_mono Sample.building_first /\
  (wall Sample.building_first <= 1)%Q /\
  handler Sample.key 1 1 Sample.bot Sample.building_first =
    (Sample.building_first, Some (HTTPAccepted (building_cache Sample.key))) /\
  (forall rid k', tasks Sample.building_first !! rid <> Some (Blocked k')).
Proof.
  assert (H : reachable Sample.building_first)
    by apply exec_reachable, reachable_init.
  assert (Hh : held Sample.building_first Sample.key) by (vm_compute; reflexivity).
  assert (Hm : reachable_mono Sample.building_first).
  { apply exec_reachable_mono; [apply reachable_mono_init|].
    simpl. split; apply Qle_refl. }
  assert (Hw : (wall Sample.building_first <= 1)%Q) by (vm_compute; discriminate).
  destruct (busy_is_immediate _ _ 1 1 Sample.bot H Hh) as (_ & Hbusy & Hnb).
  split; [exact H|]. split; [exact Hh|]. split; [exact Hm|]. split; [exact Hw|].
  split; [exact (Hbusy Hm Hw) | exact Hnb].
Defined.

(** C3, against the claim.  The second build for [Sample.key] is in flight
    and holds the lock; the wall clock, which read 11 when that build
    started, reads 9 when the next request for the key arrives: the request
    is served the entry of time 0 from the cache and never gets to the lock
    check. *)
Lemma held_but_served :
  reachable Sample.rebuilding /\
  held Sample.rebuilding Sample.key /\
  (9 < wall Sample.rebuilding)%Q /\
  handler Sample.key 9 9 Sample.bot Sample.rebuilding =
    (Sample.rebuilding,
     Some (json_response (RoleMembers._payload Sample.key Sample.guild ["42"]))).
Proof.
  split; [apply exec_reachable, exec_reachable, reachable_init|].
  split; [vm_compute; reflexivity|]. split; [vm_compute; reflexivity|].
  apply handler_hit. vm_compute; reflexivity.
Qed.

(** C4 at the state in which the second build is in flight. *)
Lemma lock_released_on_every_exit_witness :
  reachable Sample.rebuilding /\
  (forall k,
     acquired k (log Sample.rebuilding) =
     released k (log Sample.rebuilding) +
     (if decide (held Sample.rebuilding k) then 1 else 0)) /\
  (forall k, held Sample.rebuilding k ->
     exists rid guild acc started,
       tasks Sample.rebuilding !! rid = Some (Scanning k guild acc started) /\
       (started <= loop_time Sample.rebuilding)%Q) /\
  (forall rid k guild acc started,
     tasks Sample.rebuilding !! rid = Some (Scanning k guild acc started) ->
     (forall now, exists st',
        step (EvExhausted rid now) Sample.rebuilding =
          Some (st', Some (json_response (make_payload k guild acc))) /\
        gives_back rid k Sample.rebuilding st') /\
     ((deadline Sample.rebuilding started <= loop_time Sample.rebuilding)%Q ->
      exists st',
        step (EvTimeout rid) Sample.rebuilding =
          Some (st', Some (HTTPAccepted (building_cache k))) /\
        gives_back rid k Sample.rebuilding st') /\
     (exists st',
        step (EvRaise rid) Sample.rebuilding =
          Some (st', Some HTTPInternalServerError) /\
        gives_back rid k Sample.rebuilding st') /\
     (forall d, (0 <= d)%Q ->
        (deadline Sample.rebuilding started <= loop_time Sample.rebuilding + d)%Q ->
        exists st',
          run [EvTick d; EvTimeout rid] Sample.rebuilding = Some st' /\
          gives_back rid k Sample.rebuilding st') /\
     (forall ev st' r, step ev Sample.rebuilding = Some (st', r) ->
        gives_back rid k Sample.rebuilding st' \/
        exists guild' acc',
          tasks st' !! rid = Some (Scanning k guild' acc' started) /\ held st' k)) /\
  (forall k now1 now2 bot st' body,
     step (EvRequest k now1 now2 bot) Sample.rebuilding =
       Some (st', Some (HTTPNotFound body)) ->
     released k (log st') = S (released k (log Sample.rebuilding)) /\
     acquired k (log st') = S (acquired k (log Sample.rebuilding)) /\
     ~ held st' k).
Proof.
  assert (H : reachable Sample.rebuilding).
  { apply exec_reachable, exec_reachable, reachable_init. }
  split; [exact H | exact (lock_released_on_every_exit _ H)].
Defined.

(** C4, against the claim.  The first build took the lock at loop time 0
    with a deadline of 5 s and its scan has stalled.  At loop time 5.001 the
    timer has expired and the loop has not served it yet: the handler is
    still parked, the lock is still held, and a request for the key is
    answered 202.  The timeout exit, when the loop gets to it, gives the
    lock back. *)
Lemma held_past_deadline :
  reachable SampleFront.overdue /\
  tasks SampleFront.overdue !! 0 = Some (Scanning Sample.key Sample.guild [] 0) /\
  held SampleFront.overdue Sample.key /\
  (deadline SampleFront.overdue 0 < loop_time SampleFront.overdue)%Q /\
  answer (EvRequest Sample.key 5 5 Sample.bot) SampleFront.overdue =
    Some (Some (HTTPAccepted (building_cache Sample.key))) /\
  answer (EvTimeout 0) SampleFront.overdue =
    Some (Some (HTTPAccepted (building_cache Sample.key))) /\
  ~ held (exec [EvTimeout 0] SampleFront.overdue) Sample.key.
Proof.
  split; [apply exec_reachable, exec_reachable, reachable_init|].
  split; [reflexivity|]. split; [vm_compute; reflexivity|].
  split; [vm_compute; reflexivity|]. split; [vm_compute; reflexivity|].
  split; [vm_compute; reflexivity|]. vm_compute. discriminate.
Qed.

(** C5, against the claim.  The entry of [Sample.key] has expired, a request
    arrives at time 12, and no build is started: a build for the key is in
    flight, the request is answered 202, and the state, log included, is as
    it was. *)
Lemma expired_but_busy :
  reachable Sample.rebuilding /\
  (exists e, _cache Sample.rebuilding !! Sample.key = Some e /\
     (inject_Z (cache_seconds Sample.rebuilding) <= 12 - ts e)%Q) /\
  handler Sample.key 12 12 Sample.bot Sample.rebuilding =
    (Sample.rebuilding, Some (HTTPAccepted (building_cache Sample.key))).
Proof.
  split; [apply exec_reachable, exec_reachable, reachable_init|].
  split; [|apply handler_busy; vm_compute; reflexivity].
  eexists. split; [vm_compute; reflexivity|]. vm_compute. discriminate.
Qed.

(** C5 as amended, at the entry of time 0 read at time 9. *)
Lemma served_iff_fresh_witness :
  _cache Sample.cached !! Sample.key =
    Some {| ts := 0; payload := RoleMembers._payload Sample.key Sample.guild ["42"] |} /\
  (9 - 0 < inject_Z (cache_seconds Sample.cached))%Q /\
  handler Sample.key 9 9 Sample.bot Sample.cached =
    (Sample.cached,
     Some (json_response (RoleMembers._payload Sample.key Sample.guild ["42"]))).
Proof.
  assert (H : _cache Sample.cached !! Sample.key =
    Some {| ts := 0; payload := RoleMembers._payload Sample.key Sample.guild ["42"] |})
    by (vm_compute; reflexivity).
  assert (Hlt : (9 - 0 < inject_Z (cache_seconds Sample.cached))%Q)
    by (vm_compute; reflexivity).
  split; [exact H|]. split; [exact Hlt|].
  exact (proj1 (proj2 (served_iff_fresh _ _ 9 9 Sample.bot _ H)) Hlt).
Defined.

(** C6, against the claim.  On a fresh instance a request for a guild the
    bot does not see is answered with the not-found error, and the lock of
    its key has been taken on the way. *)
Lemma not_found_takes_lock :
  exists st',
    handler Sample.key_elsewhere 0 0 Sample.bot Sample.fresh =
      (st', Some (HTTPNotFound guild_not_found)) /\
    acquired Sample.key_elsewhere (log Sample.fresh) = 0 /\
    acquired Sample.key_elsewhere (log st') = 1 /\
    log st' = [Acquire Sample.key_elsewhere; BuildPayload Sample.key_elsewhere;
               Release Sample.key_elsewhere] /\
    _locks Sample.fresh !! Sample.key_elsewhere = None /\
    _locks st' !! Sample.key_elsewhere = Some false.
Proof.
  eexists. split.
  { apply handler_not_found;
      [reflexivity | vm_compute; discriminate | reflexivity | reflexivity]. }
  split; [reflexivity|]. split; [vm_compute; reflexivity|].
  split; [reflexivity|]. split; vm_compute; reflexivity.
Qed.

(** C6 as amended, on the same request. *)
Lemma not_found_releases_lock_witness :
  cache_hit Sample.fresh 0 (_cache Sample.fresh !! Sample.key_elsewhere) = None /\
  ~ held Sample.fresh Sample.key_elsewhere /\
  Sample.bot (guild_id_of Sample.key_elsewhere) = None /\
  exists st',
    handler Sample.key_elsewhere 0 0 Sample.bot Sample.fresh =
      (st', Some (HTTPNotFound guild_not_found)) /\
    log st' = log Sample.fresh ++
      [Acquire Sample.key_elsewhere; BuildPayload Sample.key_elsewhere;
       Release Sample.key_elsewhere] /\
    _locks st' !! Sample.key_elsewhere = Some false /\
    tasks st' = tasks Sample.fresh.
Proof.
  assert (H1 : cache_hit Sample.fresh 0 (_cache Sample.fresh !! Sample.key_elsewhere) = None)
    by reflexivity.
  assert (H2 : ~ held Sample.fresh Sample.key_elsewhere) by (vm_compute; discriminate).
  assert (H3 : Sample.bot (guild_id_of Sample.key_elsewhere) = None) by reflexivity.
  split; [exact H1|]. split; [exact H2|]. split; [exact H3|].
  exact (not_found_releases_lock _ _ 0 0 _ H1 H2 H1 H3).
Defined.

(** C7: the entry of time 0 has expired at time 10; the wall clock steps
    back and the second read, at time 9, finds it valid. *)
Lemma recheck_under_lock_witness :
  cache_hit Sample.cached 10 (_cache Sample.cached !! Sample.key) = None /\
  ~ held Sample.cached Sample.key /\
  _cache Sample.cached !! Sample.key =
    Some {| ts := 0; payload := RoleMembers._payload Sample.key Sample.guild ["42"] |} /\
  _cache_valid Sample.cached 9
    {| ts := 0; payload := RoleMembers._payload Sample.key Sample.guild ["42"] |} = true /\
  exists st',
    handler Sample.key 10 9 Sample.bot Sample.cached =
      (st', Some (json_response (RoleMembers._payload Sample.key Sample.guild ["42"]))) /\
    log st' = log Sample.cached ++ [Acquire Sample.key; Release Sample.key] /\
    ~ held st' Sample.key /\ tasks st' = tasks Sample.cached /\
    _cache st' = _cache Sample.cached.
Proof.
  assert (H1 : cache_hit Sample.cached 10 (_cache Sample.cached !! Sample.key) = None)
    by (vm_compute; reflexivity).
  assert (H2 : ~ held Sample.cached Sample.key) by (vm_compute; discriminate).
  assert (H3 : _cache Sample.cached !! Sample.key =
    Some {| ts := 0; payload := RoleMembers._payload Sample.key Sample.guild ["42"] |})
    by (vm_compute; reflexivity).
  assert (H4 : _cache_valid Sample.cached 9
    {| ts := 0; payload := RoleMembers._payload Sample.key Sample.guild ["42"] |} = true)
    by (vm_compute; reflexivity).
  split; [exact H1|]. split; [exact H2|]. split; [exact H3|]. split; [exact H4|].
  exact (proj1 (recheck_under_lock Sample.cached Sample.key 10 9 Sample.bot H1 H2)
           _ H3 H4).
Defined.

(** C9: a request at time 11 over the expired entry, with a bot that sees
    no guild. *)
Lemma not_found_leaves_store_witness :
  step (EvRequest Sample.key 11 11 Sample.blind) Sample.cached =
    Some (exec [EvRequest Sample.key 11 11 Sample.blind] Sample.cached,
          Some (HTTPNotFound guild_not_found)) /\
  Sample.blind (guild_id_of Sample.key) = None /\
  _cache (exec [EvRequest Sample.key 11 11 Sample.blind] Sample.cached) =
    _cache Sample.cached.
Proof.
  assert (H : step (EvRequest Sample.key 11 11 Sample.blind) Sample.cached =
    Some (exec [EvRequest Sample.key 11 11 Sample.blind] Sample.cached,
          Some (HTTPNotFound guild_not_found)))
    by (apply step_exec; vm_compute; reflexivity).
  split; [exact H|]. exact (not_found_leaves_store _ _ _ _ _ _ _ H).
Defined.

(** C10: role 99 is not in the role cache of the guild; carol has it. *)
Lemma unknown_role_name_witness :
  step (EvRequest Sample.key_no_role 0 0 Sample.bot) Sample.fresh =
    Some (exec [EvRequest Sample.key_no_role 0 0 Sample.bot] Sample.fresh, None) /\
  Sample.bot 7%Z = Some Sample.guild /\
  Guild.get_role Sample.guild 99%Z = None /\
  exists st2 st3 p,
    run (map (EvMember (next_task Sample.fresh)) [Sample.alice; Sample.carol; Sample.bob])
      (exec [EvRequest Sample.key_no_role 0 0 Sample.bot] Sample.fresh) = Some st2 /\
    step (EvExhausted (next_task Sample.fresh) 3) st2 =
      Some (st3, Some (json_response p)) /\
    _cache st3 !! ((7, 99)%Z : RoleMembers.CacheKey) = Some {| ts := 3; payload := p |} /\
    field "role_name" p = Some (JStr "unknown") /\
    field "count" p =
      Some (JInt (Z.of_nat (length
        (RoleMembers.matches 99%Z [Sample.alice; Sample.carol; Sample.bob])))) /\
    field "members" p =
      Some (JList (map (fun mid => JDict [("discord_user_id", JStr mid)])
                     (RoleMembers.matches 99%Z [Sample.alice; Sample.carol; Sample.bob]))).
Proof.
  assert (H1 : step (EvRequest Sample.key_no_role 0 0 Sample.bot) Sample.fresh =
    Some (exec [EvRequest Sample.key_no_role 0 0 Sample.bot] Sample.fresh, None))
    by (apply step_exec; vm_compute; reflexivity).
  split; [exact H1|]. split; [reflexivity|]. split; [reflexivity|].
  exact (unknown_role_name 7%Z 99%Z 0 0 Sample.bot _ _ Sample.guild
           [Sample.alice; Sample.carol; Sample.bob] 3 H1 eq_refl eq_refl).
Defined.

(** * Further facts *)

Section MoreFacts.
Context {F : Feature}.
Implicit Types (st : State) (k : Key) (rid : nat) (now : Q).

(** ** Further facts about the loop *)

(** X1.  In its arrival segment a request never writes the store, never
    touches the lock of another key, and leaves every parked handler as it
    is. *)
Theorem request_touches_own_lock_only st k now1 now2 bot k' :
  k' <> k ->
  _cache (fst (handler k now1 now2 bot st)) = _cache st /\
  _locks (fst (handler k now1 now2 bot st)) !! k' = _locks st !! k' /\
  (forall rid t, tasks st !! rid = Some t ->
     next_task st <= rid \/ tasks (fst (handler k now1 now2 bot st)) !! rid = Some t).
Proof.
  intros Hne. pose proof (handler_paths k now1 now2 bot st) as Hp.
  destruct (handler k now1 now2 bot st) as [st' r]. simpl.
  inversion Hp; subst; simpl; rewrite ?lookup_insert_ne by congruence;
    repeat split; auto.
  intros rid t Ht. destruct (decide (rid = next_task st)) as [->|Hr].
  - left. lia.
  - right. now rewrite lookup_insert_ne by congruence.
Qed.

(** X2.  The entry of a key changes only when a build that holds the lock of
    the key completes: the step is the success exit of that build, the lock
    is given back in the same step, and the new entry is the payload that is
    answered, stamped with the time of the commit. *)
Theorem store_written_under_lock st ev st' r k :
  reachable st ->
  step ev st = Some (st', r) ->
  _cache st' !! k <> _cache st !! k ->
  held st k /\ ~ held st' k /\
  exists rid guild acc started now,
    ev = EvExhausted rid now /\
    tasks st !! rid = Some (Scanning k guild acc started) /\
    r = Some (json_response (make_payload k guild acc)) /\
    _cache st' !! k =
      Some {| ts := now; payload := make_payload k guild acc |}.
Proof.
  intros Hr Hstep Hne. pose proof (reachable_inv _ Hr) as Hinv.
  destruct (step_cache _ _ _ _ Hstep) as
    [E|(rid & k' & g & acc & s & now & -> & Ht & E)]; [congruence|].
  destruct (decide (k' = k)) as [->|Hk];
    [|rewrite E, lookup_insert_ne in Hne by congruence; congruence].
  split; [eapply (inv_build_held _ Hinv); [eassumption|reflexivity]|].
  simpl in Hstep. unfold on_exhausted in Hstep. rewrite Ht in Hstep.
  simpl in Hstep. injection Hstep as <- <-.
  split; [unfold held; simpl; rewrite lookup_insert_eq; discriminate|].
  exists rid, g, acc, s, now. repeat split; try assumption.
  simpl. apply lookup_insert_eq.
Qed.

(** X3.  Entries and locks are never removed: a key that has an entry, or a
    lock, has one after every run of the loop. *)
Theorem tables_only_grow evs st st' k :
  run evs st = Some st' ->
  (is_Some (_cache st !! k) -> is_Some (_cache st' !! k)) /\
  (is_Some (_locks st !! k) -> is_Some (_locks st' !! k)).
Proof.
  revert st. induction evs as [|ev evs IH]; simpl; intros st.
  { intros [= <-]. auto. }
  destruct (step ev st) as [[st1 r]|] eqn:Hstep; [|discriminate]. simpl.
  intros Hrun. destruct (IH _ Hrun) as [IHc IHl].
  split; intros H; [apply IHc | apply IHl].
  - destruct (step_cache _ _ _ _ Hstep) as
      [->|(rid & k' & g & acc & s & now & _ & _ & ->)]; [assumption|].
    destruct (decide (k' = k)) as [->|Hk].
    + rewrite lookup_insert_eq. eauto.
    + now rewrite lookup_insert_ne by congruence.
  - clear IHc IHl Hrun IH.
    destruct ev as [k0 now1 now2 bot|rid' m|rid' g|rid' now|rid'|rid'|d];
      simpl in Hstep.
    + pose proof (handler_paths k0 now1 now2 bot st) as Hp.
      destruct (handler k0 now1 now2 bot st) as [st2 r2].
      injection Hstep as <- <-.
      inversion Hp; subst; simpl; try assumption;
        (destruct (decide (k0 = k)) as [->|Hk];
         [rewrite ?lookup_insert_eq; eauto
         |rewrite ?lookup_insert_ne by congruence; assumption]).
    + unfold on_member in Hstep. destruct (tasks st !! rid') as [[]|]; try discriminate.
      injection Hstep as <- <-. assumption.
    + unfold on_guild_update in Hstep. destruct (tasks st !! rid') as [[]|]; try discriminate.
      injection Hstep as <- <-. assumption.
    + unfold on_exhausted in Hstep. destruct (tasks st !! rid') as [[k0 ? ? ?|]|]; try discriminate.
      injection Hstep as <- <-. simpl.
      destruct (decide (k0 = k)) as [->|Hk];
        [rewrite lookup_insert_eq; eauto
        |rewrite lookup_insert_ne by congruence; assumption].
    + unfold on_timeout in Hstep. destruct (tasks st !! rid') as [[k0 ? ? ?|]|]; try discriminate.
      simpl in Hstep. destruct (Qle_bool _ _); [|discriminate].
      injection Hstep as <- <-. simpl.
      destruct (decide (k0 = k)) as [->|Hk];
        [rewrite lookup_insert_eq; eauto
        |rewrite lookup_insert_ne by congruence; assumption].
    + unfold on_raise in Hstep. destruct (tasks st !! rid') as [[k0 ? ? ?|]|]; try discriminate.
      injection Hstep as <- <-. simpl.
      destruct (decide (k0 = k)) as [->|Hk];
        [rewrite lookup_insert_eq; eauto
        |rewrite lookup_insert_ne by congruence; assumption].
    + unfold on_tick in Hstep. destruct (Qle_bool 0 d); [|discriminate].
      injection Hstep as <- <-. assumption.
Qed.

(** X4.  What a build commits is what the next requests get: after the
    success exit of a build for a key at time [now], a request for the key
    whose clock reads less than [cache_seconds] later is answered with the
    very payload that was committed, and changes nothing. *)
Theorem committed_payload_is_served st rid k guild acc started now st1 r
    now1 now2 bot :
  tasks st !! rid = Some (Scanning k guild acc started) ->
  step (EvExhausted rid now) st = Some (st1, r) ->
  (now1 - now < inject_Z (cache_seconds st))%Q ->
  r = Some (json_response (make_payload k guild acc)) /\
  handler k now1 now2 bot st1 =
    (st1, Some (json_response (make_payload k guild acc))).
Proof.
  intros Ht Hstep Hlt. simpl in Hstep. unfold on_exhausted in Hstep.
  rewrite Ht in Hstep. simpl in Hstep. injection Hstep as <- <-.
  split; [reflexivity|]. apply handler_hit. simpl. rewrite lookup_insert_eq.
  simpl. unfold _cache_valid. simpl. apply Qltb_lt in Hlt. now rewrite Hlt.
Qed.

(** X5.  Nothing of a build that timed out is kept: the key is unlocked, and
    the next request for the key that gets to the builder starts a build of
    its own, with an empty list and a timer of its own. *)
Theorem retry_after_timeout_starts_afresh st rid k guild acc started st1 r
    now1 now2 bot guild' :
  tasks st !! rid = Some (Scanning k guild acc started) ->
  step (EvTimeout rid) st = Some (st1, r) ->
  cache_hit st1 now1 (_cache st1 !! k) = None ->
  cache_hit st1 now2 (_cache st1 !! k) = None ->
  bot (guild_id_of k) = Some guild' ->
  ~ held st1 k /\
  exists st2,
    handler k now1 now2 bot st1 = (st2, None) /\
    tasks st2 !! next_task st1 = Some (Scanning k guild' [] (loop_time st1)) /\
    held st2 k.
Proof.
  intros Ht Hstep H1 H2 Hg. simpl in Hstep. unfold on_timeout in Hstep.
  rewrite Ht in Hstep. destruct (Qle_bool _ _); [|discriminate].
  injection Hstep as <- <-.
  assert (Hfree : ~ held (release k (reap rid st)) k).
  { unfold held. simpl. rewrite lookup_insert_eq. discriminate. }
  split; [exact Hfree|].
  rewrite (handler_build _ _ _ _ _ _ H1 Hfree H2 Hg). eexists.
  split; [reflexivity|]. split.
  - simpl. apply lookup_insert_eq.
  - unfold held. simpl. apply lookup_insert_eq.
Qed.

(** Every entry of the store was assembled by [make_payload] for its key. *)
Lemma reachable_cache_made st k e :
  reachable st -> _cache st !! k = Some e ->
  exists guild acc, payload e = make_payload k guild acc.
Proof.
  intros Hr. revert k e. induction Hr as [cs bt|st ev st' r _ IH Hstep]; intros k e.
  - simpl. now rewrite lookup_empty.
  - destruct (step_cache _ _ _ _ Hstep) as
      [->|(rid & k' & g & acc & s & now & _ & _ & ->)]; [apply IH|].
    destruct (decide (k' = k)) as [->|Hk].
    + rewrite lookup_insert_eq. intros [= <-]. simpl. eauto.
    + rewrite lookup_insert_ne by congruence. apply IH.
Qed.

(** X17.  When the clock does not step back between the two reads of a
    request, the second read finds nothing the first did not find: a 200 of
    the arrival segment always comes from the first read and changes
    nothing, and a request that takes the lock always calls the builder. *)
Theorem recheck_idle_on_monotone_clock st k now1 now2 bot :
  (now1 <= now2)%Q ->
  (cache_hit st now1 (_cache st !! k) = None ->
   cache_hit st now2 (_cache st !! k) = None) /\
  (forall st' p,
     handler k now1 now2 bot st = (st', Some (json_response p)) ->
     st' = st /\ cache_hit st now1 (_cache st !! k) = Some p) /\
  (cache_hit st now1 (_cache st !! k) = None -> ~ held st k ->
   exists st' r rest,
     handler k now1 now2 bot st = (st', r) /\
     log st' = log st ++ Acquire k :: BuildPayload k :: rest).
Proof.
  intros Hle.
  assert (Hmiss : cache_hit st now1 (_cache st !! k) = None ->
                  cache_hit st now2 (_cache st !! k) = None).
  { rewrite !cache_hit_None. intros H e He. specialize (H e He).
    apply _cache_valid_ge in H. apply _cache_valid_ge. lra. }
  split; [exact Hmiss|]. split.
  - intros st' p Hh. pose proof (handler_paths k now1 now2 bot st) as Hp.
    rewrite Hh in Hp.
    inversion Hp as [p' Hc | | p' Hc1 _ Hc2 | |]; subst; [auto|].
    rewrite (Hmiss Hc1) in Hc2. discriminate.
  - intros H1 Hfree. pose proof (Hmiss H1) as H2.
    destruct (bot (guild_id_of k)) as [g|] eqn:Hg.
    + rewrite (handler_build _ _ _ _ _ _ H1 Hfree H2 Hg). do 3 eexists.
      split; [reflexivity|]. simpl. rewrite <- app_assoc. reflexivity.
    + rewrite (handler_not_found _ _ _ _ _ H1 Hfree H2 Hg). do 3 eexists.
      split; [reflexivity|]. simpl. rewrite <- !app_assoc. reflexivity.
Qed.

(** X19.  The answer to a request depends on the entry and the lock of its
    own key only: two states of an instance that agree on the TTL, on the
    entry of the key and on whether its lock is held answer alike, whatever
    builds are in flight for other keys. *)
Theorem answer_depends_on_own_key_only st1 st2 k now1 now2 bot :
  cache_seconds st1 = cache_seconds st2 ->
  _cache st1 !! k = _cache st2 !! k ->
  (held st1 k <-> held st2 k) ->
  snd (handler k now1 now2 bot st1) = snd (handler k now1 now2 bot st2).
Proof.
  intros Hc He Hh.
  assert (Hhit : forall now, cache_hit st1 now (_cache st1 !! k) =
                             cache_hit st2 now (_cache st2 !! k)).
  { intros now. rewrite He. unfold cache_hit, _cache_valid. now rewrite Hc. }
  pose proof (handler_paths k now1 now2 bot st1) as P1.
  pose proof (handler_paths k now1 now2 bot st2) as P2.
  destruct (handler k now1 now2 bot st1) as [s1 r1].
  destruct (handler k now1 now2 bot st2) as [s2 r2]. simpl.
  unfold held in Hh.
  inversion P1; subst; inversion P2; subst;
    repeat match goal with
    | H : cache_hit st1 _ _ = _ |- _ => rewrite Hhit in H
    end; try congruence; tauto.
Qed.

End MoreFacts.

(** X6.  Every payload in the store of the role-members feature is
    consistent with its key and with itself: [role_id] is the role of the
    key, [count] is the number of entries of [members], and each entry of
    [members] is a dict with the one field [discord_user_id]. *)
Theorem role_members_cache_consistent
    (st : State (F := RoleMembers.feature)) (guild_id role_id : Z) e :
  reachable st ->
  _cache st !! ((guild_id, role_id) : RoleMembers.CacheKey) = Some e ->
  exists member_ids,
    field "role_id" (payload e) = Some (JStr (pretty role_id)) /\
    field "count" (payload e) = Some (JInt (Z.of_nat (length member_ids))) /\
    field "members" (payload e) =
      Some (JList (map (fun mid => JDict [("discord_user_id", JStr mid)])
                     member_ids)).
Proof.
  intros Hr He.
  destruct (reachable_cache_made (F := RoleMembers.feature) _ _ _ Hr He)
    as (g & acc & ->).
  exists acc. repeat split.
Qed.

(** X7.  Every payload in the store of the boosters feature has a [count]
    that is the number of entries of [boosters]. *)
Theorem boosters_cache_consistent
    (st : State (F := Subscriptions.feature)) (guild_id : Z) e :
  reachable st ->
  _cache st !! guild_id = Some e ->
  exists boosters,
    field "count" (payload e) = Some (JInt (Z.of_nat (length boosters))) /\
    field "boosters" (payload e) = Some (JList boosters).
Proof.
  intros Hr He.
  destruct (reachable_cache_made (F := Subscriptions.feature) _ _ _ Hr He)
    as (g & acc & ->).
  exists acc. repeat split.
Qed.

Lemma boosters_scan guild_id ms : forall acc,
  fold_left (fun a m => Subscriptions._scan guild_id m a) ms acc =
  acc ++ boosters_of ms.
Proof.
  induction ms as [|m ms IH]; simpl; intros acc.
  - now rewrite app_nil_r.
  - rewrite IH. unfold Subscriptions._scan.
    destruct (Member.premium_since m); simpl; [|reflexivity].
    now rewrite <- app_assoc.
Qed.

(** X8.  A boosters request that starts a build whose scan is fed the
    members [ms] and completes is answered 200 and cached: the payload names
    the guild, [boosters] lists the members of [ms] that have
    [premium_since], in order, each with its id, its two names and the date
    in ISO format, and [count] is their number. *)
Theorem boosters_payload (guild_id : Z) now1 now2 bot st st1 guild ms now3 :
  step (EvRequest (F := Subscriptions.feature) guild_id now1 now2 bot) st
    = Some (st1, None) ->
  bot guild_id = Some guild ->
  exists st2 st3 p,
    run (map (EvMember (next_task st)) ms) st1 = Some st2 /\
    step (EvExhausted (next_task st) now3) st2 =
      Some (st3, Some (json_response p)) /\
    _cache st3 !! guild_id = Some {| ts := now3; payload := p |} /\
    field "guild_id" p = Some (JStr (pretty (Guild.id guild))) /\
    field "guild_name" p = Some (JStr (Guild.name guild)) /\
    field "count" p = Some (JInt (Z.of_nat (length (boosters_of ms)))) /\
    field "boosters" p = Some (JList (boosters_of ms)).
Proof.
  simpl. intros Hstep Hg.
  pose proof (handler_paths (F := Subscriptions.feature)
                guild_id now1 now2 bot st) as Hp.
  destruct (handler _ now1 now2 bot st) as [st0 r0]. injection Hstep as <- ->.
  inversion Hp as [| | | |guild' H1 Hfree H2 Hg' Hst1]; subst.
  simpl in Hg'. rewrite Hg in Hg'. injection Hg' as <-.
  match goal with |- context [run _ ?s] => set (st1 := s) end.
  assert (Ht0 : tasks st1 !! next_task st =
                Some (Scanning (F := Subscriptions.feature)
                        guild_id guild [] (loop_time st))).
  { simpl. apply lookup_insert_eq. }
  destruct (run_members ms _ _ _ _ _ _ Ht0) as (st2 & Hrun & Ht).
  exists st2. rewrite Hrun. simpl in Ht. rewrite boosters_scan in Ht. simpl in Ht.
  unfold on_exhausted. rewrite Ht. simpl. do 2 eexists. split; [reflexivity|].
  split; [reflexivity|]. split; [apply lookup_insert_eq|]. repeat split.
Qed.

(** X18.  A role-members request that starts a build, whose scan is fed the
    members [ms] and completes, and whose guild knows the role, is answered
    200 and cached: the payload carries the id and the name of the guild,
    the id of the role and its name, and [count] and [members] as the
    members of [ms] that have the role. *)
Theorem known_role_name (guild_id role_id : Z) now1 now2 bot
    st st1 guild role ms now3 :
  step (EvRequest (F := RoleMembers.feature) (guild_id, role_id) now1 now2 bot) st
    = Some (st1, None) ->
  bot guild_id = Some guild ->
  Guild.get_role guild role_id = Some role ->
  exists st2 st3 p,
    run (map (EvMember (next_task st)) ms) st1 = Some st2 /\
    step (EvExhausted (next_task st) now3) st2 =
      Some (st3, Some (json_response p)) /\
    _cache st3 !! (guild_id, role_id) = Some {| ts := now3; payload := p |} /\
    field "guild_id" p = Some (JStr (pretty (Guild.id guild))) /\
    field "guild_name" p = Some (JStr (Guild.name guild)) /\
    field "role_id" p = Some (JStr (pretty role_id)) /\
    field "role_name" p = Some (JStr (Role.name role)) /\
    field "count" p =
      Some (JInt (Z.of_nat (length (RoleMembers.matches role_id ms)))) /\
    field "members" p =
      Some (JList (map (fun mid => JDict [("discord_user_id", JStr mid)])
                     (RoleMembers.matches role_id ms))).
Proof.
  simpl. intros Hstep Hg Hrole.
  pose proof (handler_paths (F := RoleMembers.feature)
                ((guild_id, role_id) : RoleMembers.CacheKey) now1 now2 bot st) as Hp.
  destruct (handler _ now1 now2 bot st) as [st0 r0]. injection Hstep as <- ->.
  inversion Hp as [| | | |guild' H1 Hfree H2 Hg' Hst1]; subst.
  simpl in Hg'. rewrite Hg in Hg'. injection Hg' as <-.
  match goal with |- context [run _ ?s] => set (st1 := s) end.
  assert (Ht0 : tasks st1 !! next_task st =
                Some (Scanning (F := RoleMembers.feature)
                        (guild_id, role_id) guild [] (loop_time st))).
  { simpl. apply lookup_insert_eq. }
  destruct (run_members ms _ _ _ _ _ _ Ht0) as (st2 & Hrun & Ht).
  exists st2. rewrite Hrun. simpl in Ht. rewrite role_members_scan in Ht. simpl in Ht.
  unfold on_exhausted. rewrite Ht. simpl. do 2 eexists. split; [reflexivity|].
  split; [reflexivity|]. split; [apply lookup_insert_eq|].
  unfold RoleMembers._payload, RoleMembers.role_name_of. simpl.
  rewrite Hrole. repeat split.
Qed.

(** ** The builtins of the sample world read what [str] prints *)

Lemma lstrip_solid s : SamplePy.solid s = true -> SamplePy.lstrip s = s.
Proof.
  destruct s as [|c s]; simpl; [reflexivity|].
  intros [Hc _]%andb_prop. now destruct (Ascii.is_space c).
Qed.

Lemma rstrip_solid s : SamplePy.solid s = true -> SamplePy.rstrip s = s.
Proof.
  induction s as [|c s IH]; simpl; [reflexivity|].
  intros [Hc Hs]%andb_prop. rewrite (IH Hs).
  destruct (Ascii.is_space c); [discriminate|]. now destruct s.
Qed.

Lemma strip_solid s : SamplePy.solid s = true -> SamplePy.strip s = s.
Proof.
  intros H. unfold SamplePy.strip. rewrite (lstrip_solid _ H).
  now apply rstrip_solid.
Qed.

Lemma pretty_N_char_digit x :
  (x < 10)%N ->
  Ascii.is_nat (pretty_N_char x) = Some (N.to_nat x) /\
  Ascii.is_space (pretty_N_char x) = false /\
  pretty_N_char x <> "-"%char.
Proof.
  intros H.
  assert (x = 0 \/ x = 1 \/ x = 2 \/ x = 3 \/ x = 4 \/ x = 5 \/ x = 6 \/ x = 7
          \/ x = 8 \/ x = 9)%N as Hx by lia.
  repeat (destruct Hx as [->|Hx]); try subst x; repeat split; discriminate.
Qed.

Lemma pretty_N_go_solid x : forall s,
  SamplePy.solid s = true -> SamplePy.solid (pretty_N_go x s) = true.
Proof.
  induction (N.lt_wf_0 x) as [x _ IH]; intros s Hs.
  destruct (decide (x = 0)%N) as [->|Hx]; [now rewrite pretty_N_go_0|].
  rewrite pretty_N_go_step by lia. apply IH; [apply N.div_lt; lia|].
  simpl. rewrite Hs.
  destruct (pretty_N_char_digit (x `mod` 10)%N) as (_ & -> & _); [|reflexivity].
  apply N.mod_lt. lia.
Qed.

Lemma digits_pretty_N_go x : forall s,
  SamplePy.digits (pretty_N_go x s) 0 = SamplePy.digits s x.
Proof.
  induction (N.lt_wf_0 x) as [x _ IH]; intros s.
  destruct (decide (x = 0)%N) as [->|Hx]; [now rewrite pretty_N_go_0|].
  rewrite pretty_N_go_step by lia. rewrite IH by (apply N.div_lt; lia).
  simpl.
  destruct (pretty_N_char_digit (x `mod` 10)%N) as (-> & _); [apply N.mod_lt; lia|].
  f_equal. rewrite N2Nat.id. pose proof (N.div_mod x 10 ltac:(lia)). lia.
Qed.

Lemma pretty_N_go_head x s :
  (0 < x)%N ->
  exists c s', pretty_N_go x s = String c s' /\ c <> "-"%char.
Proof.
  revert s. induction (N.lt_wf_0 x) as [x _ IH]; intros s Hx.
  rewrite pretty_N_go_step by lia.
  destruct (decide (x `div` 10 = 0)%N) as [Hd|Hd]; [rewrite Hd|].
  - rewrite pretty_N_go_0. do 2 eexists. split; [reflexivity|].
    apply pretty_N_char_digit. apply N.mod_lt. lia.
  - apply IH; [apply N.div_lt; lia | now apply N.neq_0_lt_0].
Qed.

Lemma int_pretty_pos p : SamplePy.int (pretty (N.pos p)) = Some (Z.pos p).
Proof.
  unfold pretty, pretty_N. rewrite decide_False by discriminate.
  destruct (pretty_N_go_head (N.pos p) "" eq_refl) as (c & s' & E & Hc).
  pose proof (digits_pretty_N_go (N.pos p) "") as Hd. rewrite E in *.
  unfold SamplePy.int. rewrite decide_False by assumption.
  rewrite Hd. reflexivity.
Qed.

Lemma solid_pretty_pos p : SamplePy.solid (pretty (N.pos p)) = true.
Proof.
  unfold pretty, pretty_N. rewrite decide_False by discriminate.
  now apply pretty_N_go_solid.
Qed.

(** [int(str(n).strip())] is [n]. *)
Lemma sample_int_str n :
  @Py.int SamplePy.py (@Py.strip SamplePy.py (Py.str n)) = Some n.
Proof.
  unfold Py.str, pretty, pretty_Z. simpl. destruct n as [|p|p].
  - reflexivity.
  - change (pretty p) with (pretty (N.pos p)).
    rewrite strip_solid by apply solid_pretty_pos. apply int_pretty_pos.
  - change (pretty p) with (pretty (N.pos p)).
    change ("-" +:+ pretty (N.pos p)) with (String "-" (pretty (N.pos p))).
    rewrite strip_solid by (simpl; apply solid_pretty_pos).
    pose proof (int_pretty_pos p) as Hp. unfold SamplePy.int in *.
    rewrite decide_True by reflexivity.
    destruct (pretty (N.pos p)) as [|c s'] eqn:E; [discriminate|].
    rewrite decide_False by discriminate.
    destruct (decide (c = "-"%char)) as [->|Hc].
    + destruct (decide (s' = "")); [discriminate|].
      destruct (SamplePy.digits s' 0); simpl in Hp; [|discriminate].
      injection Hp as Hp. lia.
    + destruct (SamplePy.digits (String c s') 0) as [n|]; simpl in *; [|discriminate].
      injection Hp as Hp. f_equal. lia.
Qed.

(** ** The front *)

Section FrontFacts.
Context {py : Py.Builtins}.

(** X9.  A role-members request is either refused, with the feature object
    exactly as it was, or it carried the API key and two ids that [int]
    reads, and is then handled by the cache logic on the key of these two
    ids. *)
Theorem role_members_front self request now1 now2 bot :
  (exists refusal,
     RoleMembersFeature.handler self request now1 now2 bot =
       (self, Some (inl refusal)))
  \/ (exists guild_id role_id,
        Py.get (headers request) "x-admin-lab-key" "" = api_key self /\
        Py.int (Py.strip (Py.get (query request) "guild_id" "")) = Some guild_id /\
        Py.int (Py.strip (Py.get (query request) "role_id" "")) = Some role_id /\
        RoleMembersFeature.handler self request now1 now2 bot =
          serve self ((guild_id, role_id) : RoleMembers.CacheKey) now1 now2 bot).
Proof.
  unfold RoleMembersFeature.handler, _auth, RoleMembersFeature.cache_key.
  destruct (decide (_ = api_key self)) as [Hk|Hk]; [|eauto].
  repeat (case_decide; [eauto|]).
  destruct (Py.int (Py.strip (Py.get (query request) "guild_id" ""))) as [g|];
    [|eauto].
  destruct (Py.int (Py.strip (Py.get (query request) "role_id" ""))) as [r|];
    [|eauto].
  right. exists g, r. auto.
Qed.

(** X10.  The same for a boosters request and its one id. *)
Theorem boosters_front self request now1 now2 bot :
  (exists refusal,
     SubscriptionFeature.boosters self request now1 now2 bot =
       (self, Some (inl refusal)))
  \/ (exists guild_id,
        Py.get (headers request) "x-admin-lab-key" "" = api_key self /\
        Py.int (Py.strip (Py.get (query request) "guild_id" "")) = Some guild_id /\
        SubscriptionFeature.boosters self request now1 now2 bot =
          serve self (guild_id : Key (Feature := Subscriptions.feature)) now1 now2 bot).
Proof.
  unfold SubscriptionFeature.boosters, _auth, SubscriptionFeature.cache_key.
  destruct (decide (_ = api_key self)) as [Hk|Hk]; [|eauto].
  case_decide; [eauto|].
  destruct (Py.int (Py.strip (Py.get (query request) "guild_id" ""))) as [g|];
    [|eauto].
  right. exists g. auto.
Qed.

(** X11.  The order of the refusals of a role-members request: a wrong API
    key is answered 401 whatever the query; with the key, a blank [guild_id]
    is reported first, then a blank [role_id] (even when [guild_id] is not a
    number), then an id that [int] does not read. *)
Theorem role_members_refusals self request now1 now2 bot :
  let key := Py.get (headers request) "x-admin-lab-key" "" in
  let gid := Py.strip (Py.get (query request) "guild_id" "") in
  let rid := Py.strip (Py.get (query request) "role_id" "") in
  let answer := RoleMembersFeature.handler self request now1 now2 bot in
  (key <> api_key self ->
   answer = (self, Some (inl (HTTPUnauthorized (error_body "unauthorized"))))) /\
  (key = api_key self -> gid = "" ->
   answer = (self, Some (inl (HTTPBadRequest (error_body "missing guild_id"))))) /\
  (key = api_key self -> gid <> "" -> rid = "" ->
   answer = (self, Some (inl (HTTPBadRequest (error_body "missing role_id"))))) /\
  (key = api_key self -> gid <> "" -> rid <> "" ->
   Py.int gid = None \/ Py.int rid = None ->
   answer = (self, Some (inl (HTTPBadRequest
                                (error_body "invalid guild_id_or_role_id"))))).
Proof.
  cbv zeta.
  unfold RoleMembersFeature.handler, _auth, RoleMembersFeature.cache_key.
  split; [|split; [|split]].
  - intros Hk. case_decide; [contradiction | reflexivity].
  - intros Hk Hg. repeat (case_decide; try contradiction). reflexivity.
  - intros Hk Hg Hr. repeat (case_decide; try contradiction). reflexivity.
  - intros Hk Hg Hr Hi. repeat (case_decide; try contradiction).
    destruct Hi as [-> | Hi]; [reflexivity|].
    rewrite Hi.
    now destruct (Py.int (Py.strip (Py.get (query request) "guild_id" ""))).
Qed.

End FrontFacts.

(** ** The settings and the wiring *)

Section SettingsFacts.
Context {py : Py.Builtins}.

(** What [load_settings] returns has passed both tests. *)
Lemma load_settings_secrets environ s :
  Settings.load_settings environ = inr s ->
  Settings.discord_bot_token s = Py.strip (Py.get environ "DISCORD_BOT_TOKEN" "") /\
  Py.strip (Py.get environ "DISCORD_BOT_TOKEN" "") <> "" /\
  Settings.admin_lab_api_key s = Py.strip (Py.get environ "ADMIN_LAB_API_KEY" "") /\
  Py.strip (Py.get environ "ADMIN_LAB_API_KEY" "") <> "".
Proof.
  unfold Settings.load_settings. repeat (case_decide; [discriminate|]).
  destruct (Py.int (Py.strip (Py.get environ "HTTP_PORT" "8787"))); [|discriminate].
  destruct (Py.int (Py.strip (Py.get environ "BOOSTERS_CACHE_SECONDS" "300")));
    [|discriminate].
  destruct (Py.int _); [|discriminate].
  intros [= <-]. simpl. auto.
Qed.

(** X12.  [load_settings] returns only settings whose bot token and API key
    are not empty: a token that is blank or unset is the first error,
    whatever else is in the environment, and a blank or unset API key the
    second. *)
Theorem load_settings_requires_secrets environ :
  let token := Py.strip (Py.get environ "DISCORD_BOT_TOKEN" "") in
  let key := Py.strip (Py.get environ "ADMIN_LAB_API_KEY" "") in
  (token = "" ->
   Settings.load_settings environ =
     inl (Settings.RuntimeError "DISCORD_BOT_TOKEN manquant dans .env")) /\
  (token <> "" -> key = "" ->
   Settings.load_settings environ =
     inl (Settings.RuntimeError "ADMIN_LAB_API_KEY manquant dans .env")) /\
  (forall s, Settings.load_settings environ = inr s ->
     Settings.discord_bot_token s = token /\ token <> "" /\
     Settings.admin_lab_api_key s = key /\ key <> "").
Proof.
  cbv zeta. unfold Settings.load_settings. split; [|split].
  - intros Ht. case_decide; [reflexivity | contradiction].
  - intros Ht Hk. repeat (case_decide; try contradiction). reflexivity.
  - intros s Hs. fold (Settings.load_settings environ) in Hs.
    exact (load_settings_secrets environ s Hs).
Qed.

(** What the code takes for granted of the builtins: [int] reads back what
    [str] prints. *)
Hypothesis int_str : forall n, Py.int (Py.strip (Py.str n)) = Some n.

(** X13.  When [ROLE_MEMBERS_CACHE_SECONDS] is not set, the role-members
    TTL is the boosters TTL, whatever that is; and when neither is set both
    are 300, and an unset [HTTP_PORT] is 8787. *)
Theorem cache_seconds_defaults environ s :
  Settings.load_settings environ = inr s ->
  (environ "ROLE_MEMBERS_CACHE_SECONDS" = None ->
   Settings.role_members_cache_seconds s = Settings.boosters_cache_seconds s) /\
  (environ "BOOSTERS_CACHE_SECONDS" = None ->
   Settings.boosters_cache_seconds s = 300%Z) /\
  (environ "HTTP_PORT" = None -> Settings.http_port s = 8787%Z).
Proof using int_str.
  unfold Settings.load_settings. repeat (case_decide; [discriminate|]).
  destruct (Py.int (Py.strip (Py.get environ "HTTP_PORT" "8787")))
    as [port|] eqn:Hp; [|discriminate].
  destruct (Py.int (Py.strip (Py.get environ "BOOSTERS_CACHE_SECONDS" "300")))
    as [b|] eqn:Hb; [|discriminate].
  destruct (Py.int (Py.strip (Py.get environ "ROLE_MEMBERS_CACHE_SECONDS" (Py.str b))))
    as [r|] eqn:Hr; [|discriminate].
  intros [= <-]. simpl. split; [|split]; intros Hunset.
  - unfold Py.get in Hr. rewrite Hunset, int_str in Hr. congruence.
  - unfold Py.get in Hb. rewrite Hunset in Hb.
    change "300" with (Py.str 300) in Hb. rewrite int_str in Hb. congruence.
  - unfold Py.get in Hp. rewrite Hunset in Hp.
    change "8787" with (Py.str 8787) in Hp. rewrite int_str in Hp. congruence.
Qed.

End SettingsFacts.

Section MainFacts.
Context {py : Py.Builtins}.

(** X14.  As [main] wires them, the two features start empty, share the API
    key of the settings, have the TTL of their own setting raised to 10 at
    least, and have a build deadline of 25 seconds: nothing in the
    environment changes the deadline. *)
Theorem main_wiring environ app :
  Main.main environ = inr app ->
  Settings.load_settings environ = inr (Main.settings app) /\
  api_key (Main.subs app) = Settings.admin_lab_api_key (Main.settings app) /\
  api_key (Main.role_members app) = Settings.admin_lab_api_key (Main.settings app) /\
  cache_seconds (core (Main.subs app)) =
    Z.max 10 (Settings.boosters_cache_seconds (Main.settings app)) /\
  cache_seconds (core (Main.role_members app)) =
    Z.max 10 (Settings.role_members_cache_seconds (Main.settings app)) /\
  build_timeout_seconds (core (Main.subs app)) = 25%Z /\
  build_timeout_seconds (core (Main.role_members app)) = 25%Z /\
  _cache (core (Main.subs app)) = ∅ /\ _locks (core (Main.subs app)) = ∅ /\
  _cache (core (Main.role_members app)) = ∅ /\
  _locks (core (Main.role_members app)) = ∅ /\
  Main.api_started app = false /\ Main.api_tasks app = [].
Proof.
  unfold Main.main. destruct (Settings.load_settings environ) as [e|s];
    [discriminate|].
  intros [= <-]. simpl. repeat split.
Qed.

(** X15.  Under [main], a request that carries no [x-admin-lab-key] header is
    answered 401 by both features: the API key of the settings is never
    empty. *)
Theorem no_header_is_unauthorized environ app request now1 now2 bot :
  Main.main environ = inr app ->
  headers request "x-admin-lab-key" = None ->
  RoleMembersFeature.handler (Main.role_members app) request now1 now2 bot =
    (Main.role_members app,
     Some (inl (HTTPUnauthorized (error_body "unauthorized")))) /\
  SubscriptionFeature.boosters (Main.subs app) request now1 now2 bot =
    (Main.subs app,
     Some (inl (HTTPUnauthorized (error_body "unauthorized")))).
Proof.
  unfold Main.main. destruct (Settings.load_settings environ) as [e|s] eqn:Hs;
    [discriminate|].
  intros [= <-] Hh. simpl.
  destruct (load_settings_secrets _ _ Hs) as (_ & _ & Hkey & Hne).
  unfold RoleMembersFeature.handler, SubscriptionFeature.boosters, _auth, Py.get.
  rewrite Hh. simpl. rewrite Hkey.
  split; (case_decide; [congruence | reflexivity]).
Qed.

(** [on_ready], [n] times. *)
Lemma on_ready_started app :
  Main.api_started app = true -> Main.on_ready app = app.
Proof. unfold Main.on_ready. now intros ->. Qed.

(** X16.  However often the bot becomes ready, the API is started once: after
    the first [on_ready] there is one [start_api] task, on the host and port
    of the settings, and every later [on_ready] changes nothing. *)
Theorem api_started_once app n :
  Main.api_started app = false ->
  let app' := Nat.iter (S n) Main.on_ready app in
  Main.api_started app' = true /\
  Main.api_tasks app' =
    Main.api_tasks app ++
    [(Settings.http_host (Main.settings app), Settings.http_port (Main.settings app))] /\
  Main.subs app' = Main.subs app /\
  Main.role_members app' = Main.role_members app /\
  Main.on_ready app' = app'.
Proof.
  intros H0. cbv zeta. induction n as [|n IH].
  - simpl. unfold Main.on_ready. rewrite H0. simpl. repeat split.
  - destruct IH as (IH1 & IH2 & IH3 & IH4 & IH5).
    change (Nat.iter (S (S n)) Main.on_ready app)
      with (Main.on_ready (Nat.iter (S n) Main.on_ready app)).
    rewrite IH5. auto.
Qed.

End MainFacts.

(** ** The further facts at work in the sample world *)

(** The front on sample requests: a wrong key, a blank and a malformed id,
    and a request that gets through to the cache logic. *)
Example scenario_front :
  let self := Main.role_members SampleFront.app in
  let answer request :=
    snd (@RoleMembersFeature.handler SamplePy.py self request 0 0 Sample.bot) in
  answer (SampleFront.request (Some "guess") (Some "7") (Some "3")) =
    Some (inl (HTTPUnauthorized (JDict [("error", JStr "unauthorized")]))) /\
  answer (SampleFront.request (Some "secret") (Some "  ") (Some "3")) =
    Some (inl (HTTPBadRequest (JDict [("error", JStr "missing guild_id")]))) /\
  answer (SampleFront.request (Some "secret") (Some "x7") None) =
    Some (inl (HTTPBadRequest (JDict [("error", JStr "missing role_id")]))) /\
  answer (SampleFront.request (Some "secret") (Some "7") (Some "3.0")) =
    Some (inl (HTTPBadRequest
                 (JDict [("error", JStr "invalid guild_id_or_role_id")]))) /\
  answer (SampleFront.request (Some "secret") (Some " 8 ") (Some "-3")) =
    Some (inr (HTTPNotFound guild_not_found)) /\
  answer (SampleFront.request (Some "secret") (Some " 7 ") (Some "3")) = None.
Proof. cbv zeta. repeat split; vm_compute; reflexivity. Qed.

(** X1: a request for [Sample.key_no_role] while the build for [Sample.key]
    is in flight. *)
Lemma request_touches_own_lock_only_witness :
  Sample.key <> Sample.key_no_role /\
  _cache (fst (handler Sample.key_no_role 0 0 Sample.bot Sample.building_first)) =
    _cache Sample.building_first /\
  _locks (fst (handler Sample.key_no_role 0 0 Sample.bot Sample.building_first))
    !! Sample.key = _locks Sample.building_first !! Sample.key /\
  (forall rid t, tasks Sample.building_first !! rid = Some t ->
     next_task Sample.building_first <= rid \/
     tasks (fst (handler Sample.key_no_role 0 0 Sample.bot Sample.building_first))
       !! rid = Some t).
Proof.
  assert (H : Sample.key <> Sample.key_no_role) by discriminate.
  split; [exact H|].
  exact (request_touches_own_lock_only Sample.building_first Sample.key_no_role
           0 0 Sample.bot Sample.key H).
Defined.

(** X2: the first build completes at time 1. *)
Lemma store_written_under_lock_witness :
  reachable Sample.building_first /\
  step (EvExhausted 0 1) Sample.building_first =
    Some (SampleFront.committed,
          Some (json_response (RoleMembers._payload Sample.key Sample.guild []))) /\
  _cache SampleFront.committed !! Sample.key <>
    _cache Sample.building_first !! Sample.key /\
  held Sample.building_first Sample.key /\
  ~ held SampleFront.committed Sample.key /\
  exists rid guild acc started now,
    EvExhausted (F := RoleMembers.feature) 0 1 = EvExhausted rid now /\
    tasks Sample.building_first !! rid = Some (Scanning Sample.key guild acc started) /\
    Some (json_response (RoleMembers._payload Sample.key Sample.guild [])) =
      Some (json_response (make_payload Sample.key guild acc)) /\
    _cache SampleFront.committed !! Sample.key =
      Some {| ts := now; payload := make_payload Sample.key guild acc |}.
Proof.
  assert (Hr : reachable Sample.building_first)
    by apply exec_reachable, reachable_init.
  assert (Hs : step (EvExhausted 0 1) Sample.building_first =
    Some (SampleFront.committed,
          Some (json_response (RoleMembers._payload Sample.key Sample.guild []))))
    by (apply step_exec; vm_compute; reflexivity).
  assert (Hc : _cache SampleFront.committed !! Sample.key <>
               _cache Sample.building_first !! Sample.key)
    by (vm_compute; discriminate).
  split; [exact Hr|]. split; [exact Hs|]. split; [exact Hc|].
  exact (store_written_under_lock _ _ _ _ _ Hr Hs Hc).
Defined.

(** X3: over [Sample.meanwhile], for the key that has an entry and a lock. *)
Lemma tables_only_grow_witness :
  run Sample.meanwhile Sample.rebuilding =
    Some (exec Sample.meanwhile Sample.rebuilding) /\
  is_Some (_cache Sample.rebuilding !! Sample.key) /\
  is_Some (_locks Sample.rebuilding !! Sample.key) /\
  is_Some (_cache (exec Sample.meanwhile Sample.rebuilding) !! Sample.key) /\
  is_Some (_locks (exec Sample.meanwhile Sample.rebuilding) !! Sample.key).
Proof.
  assert (H : run Sample.meanwhile Sample.rebuilding =
              Some (exec Sample.meanwhile Sample.rebuilding))
    by (apply run_exec; vm_compute; reflexivity).
  assert (Hc : is_Some (_cache Sample.rebuilding !! Sample.key))
    by (eexists; vm_compute; reflexivity).
  assert (Hl : is_Some (_locks Sample.rebuilding !! Sample.key))
    by (eexists; vm_compute; reflexivity).
  destruct (tables_only_grow _ _ _ Sample.key H) as [Gc Gl].
  split; [exact H|]. split; [exact Hc|]. split; [exact Hl|].
  split; [exact (Gc Hc) | exact (Gl Hl)].
Defined.

(** X4: the payload committed at time 1 is served at time 10. *)
Lemma committed_payload_is_served_witness :
  tasks Sample.building_first !! 0 = Some (Scanning Sample.key Sample.guild [] 0) /\
  step (EvExhausted 0 1) Sample.building_first =
    Some (SampleFront.committed,
          Some (json_response (RoleMembers._payload Sample.key Sample.guild []))) /\
  (10 - 1 < inject_Z (cache_seconds Sample.building_first))%Q /\
  Some (json_response (RoleMembers._payload Sample.key Sample.guild [])) =
    Some (json_response (make_payload Sample.key Sample.guild [])) /\
  handler Sample.key 10 10 Sample.bot SampleFront.committed =
    (SampleFront.committed,
     Some (json_response (make_payload Sample.key Sample.guild []))).
Proof.
  assert (Ht : tasks Sample.building_first !! 0 =
               Some (Scanning Sample.key Sample.guild [] 0)) by reflexivity.
  assert (Hs : step (EvExhausted 0 1) Sample.building_first =
    Some (SampleFront.committed,
          Some (json_response (RoleMembers._payload Sample.key Sample.guild []))))
    by (apply step_exec; vm_compute; reflexivity).
  assert (Hlt : (10 - 1 < inject_Z (cache_seconds Sample.building_first))%Q)
    by (vm_compute; reflexivity).
  split; [exact Ht|]. split; [exact Hs|]. split; [exact Hlt|].
  exact (committed_payload_is_served _ _ _ _ _ _ _ _ _ 10 10 Sample.bot Ht Hs Hlt).
Defined.

(** X5: the first build times out at its deadline; the request of time 6
    starts the next one. *)
Lemma retry_after_timeout_starts_afresh_witness :
  tasks SampleFront.at_deadline !! 0 = Some (Scanning Sample.key Sample.guild [] 0) /\
  step (EvTimeout 0) SampleFront.at_deadline =
    Some (SampleFront.after_timeout,
          Some (HTTPAccepted (building_cache Sample.key))) /\
  cache_hit SampleFront.after_timeout 6
    (_cache SampleFront.after_timeout !! Sample.key) = None /\
  Sample.bot (guild_id_of Sample.key) = Some Sample.guild /\
  ~ held SampleFront.after_timeout Sample.key /\
  exists st2,
    handler Sample.key 6 6 Sample.bot SampleFront.after_timeout = (st2, None) /\
    tasks st2 !! next_task SampleFront.after_timeout =
      Some (Scanning Sample.key Sample.guild []
              (loop_time SampleFront.after_timeout)) /\
    held st2 Sample.key.
Proof.
  assert (Ht : tasks SampleFront.at_deadline !! 0 =
               Some (Scanning Sample.key Sample.guild [] 0)) by reflexivity.
  assert (Hs : step (EvTimeout 0) SampleFront.at_deadline =
    Some (SampleFront.after_timeout,
          Some (HTTPAccepted (building_cache Sample.key))))
    by (apply step_exec; vm_compute; reflexivity).
  assert (Hc : cache_hit SampleFront.after_timeout 6
                 (_cache SampleFront.after_timeout !! Sample.key) = None)
    by (vm_compute; reflexivity).
  assert (Hg : Sample.bot (guild_id_of Sample.key) = Some Sample.guild)
    by reflexivity.
  split; [exact Ht|]. split; [exact Hs|]. split; [exact Hc|]. split; [exact Hg|].
  exact (retry_after_timeout_starts_afresh _ _ _ _ _ _ _ _ 6 6 Sample.bot _
           Ht Hs Hc Hc Hg).
Defined.

(** X6: the entry of [Sample.key] after the first completed build. *)
Lemma role_members_cache_consistent_witness :
  reachable Sample.cached /\
  _cache Sample.cached !! Sample.key =
    Some {| ts := 0; payload := RoleMembers._payload Sample.key Sample.guild ["42"] |} /\
  exists member_ids,
    field "role_id" (RoleMembers._payload Sample.key Sample.guild ["42"]) =
      Some (JStr (pretty 3%Z)) /\
    field "count" (RoleMembers._payload Sample.key Sample.guild ["42"]) =
      Some (JInt (Z.of_nat (length member_ids))) /\
    field "members" (RoleMembers._payload Sample.key Sample.guild ["42"]) =
      Some (JList (map (fun mid => JDict [("discord_user_id", JStr mid)])
                     member_ids)).
Proof.
  assert (Hr : reachable Sample.cached) by apply exec_reachable, reachable_init.
  assert (He : _cache Sample.cached !! Sample.key =
    Some {| ts := 0; payload := RoleMembers._payload Sample.key Sample.guild ["42"] |})
    by (vm_compute; reflexivity).
  split; [exact Hr|]. split; [exact He|].
  exact (role_members_cache_consistent Sample.cached 7%Z 3%Z _ Hr He).
Defined.

(** X7: the entry of guild 7 after a completed boosters build. *)
Lemma boosters_cache_consistent_witness :
  reachable SampleFront.boosters_cached /\
  _cache SampleFront.boosters_cached !! 7%Z =
    Some {| ts := 2;
            payload := Subscriptions._payload 7%Z Sample.guild
                         (boosters_of [Sample.alice; Sample.dave]) |} /\
  exists boosters,
    field "count"
      (Subscriptions._payload 7%Z Sample.guild
         (boosters_of [Sample.alice; Sample.dave])) =
      Some (JInt (Z.of_nat (length boosters))) /\
    field "boosters"
      (Subscriptions._payload 7%Z Sample.guild
         (boosters_of [Sample.alice; Sample.dave])) = Some (JList boosters).
Proof.
  assert (Hr : reachable SampleFront.boosters_cached)
    by apply exec_reachable, reachable_init.
  assert (He : _cache SampleFront.boosters_cached !! 7%Z =
    Some {| ts := 2;
            payload := Subscriptions._payload 7%Z Sample.guild
                         (boosters_of [Sample.alice; Sample.dave]) |})
    by (vm_compute; reflexivity).
  split; [exact Hr|]. split; [exact He|].
  exact (boosters_cache_consistent SampleFront.boosters_cached 7%Z _ Hr He).
Defined.

(** X8: a boosters build for guild 7 over alice, dave and bob. *)
Lemma boosters_payload_witness :
  step (EvRequest (F := Subscriptions.feature) 7%Z 0 0 Sample.bot) (__init__ 300 25) =
    Some (exec [EvRequest (F := Subscriptions.feature) 7%Z 0 0 Sample.bot]
            (__init__ 300 25), None) /\
  Sample.bot 7%Z = Some Sample.guild /\
  exists st2 st3 p,
    run (map (EvMember (next_task (__init__ (F := Subscriptions.feature) 300 25)))
           [Sample.alice; Sample.dave; Sample.bob])
      (exec [EvRequest (F := Subscriptions.feature) 7%Z 0 0 Sample.bot]
         (__init__ 300 25)) = Some st2 /\
    step (EvExhausted (next_task (__init__ (F := Subscriptions.feature) 300 25)) 2) st2 =
      Some (st3, Some (json_response p)) /\
    _cache st3 !! 7%Z = Some {| ts := 2; payload := p |} /\
    field "guild_id" p = Some (JStr (pretty (Guild.id Sample.guild))) /\
    field "guild_name" p = Some (JStr (Guild.name Sample.guild)) /\
    field "count" p =
      Some (JInt (Z.of_nat (length (boosters_of [Sample.alice; Sample.dave; Sample.bob])))) /\
    field "boosters" p =
      Some (JList (boosters_of [Sample.alice; Sample.dave; Sample.bob])).
Proof.
  assert (H1 : step (EvRequest (F := Subscriptions.feature) 7%Z 0 0 Sample.bot)
                 (__init__ 300 25) =
    Some (exec [EvRequest (F := Subscriptions.feature) 7%Z 0 0 Sample.bot]
            (__init__ 300 25), None))
    by (apply step_exec; vm_compute; reflexivity).
  split; [exact H1|]. split; [reflexivity|].
  exact (boosters_payload 7%Z 0 0 Sample.bot _ _ Sample.guild
           [Sample.alice; Sample.dave; Sample.bob] 2 H1 eq_refl).
Defined.

(** X13: the sample environment sets none of the three numbers. *)
Lemma cache_seconds_defaults_witness :
  (forall n, @Py.int SamplePy.py (@Py.strip SamplePy.py (Py.str n)) = Some n) /\
  @Settings.load_settings SamplePy.py SampleFront.environ =
    inr (Main.settings SampleFront.app) /\
  (SampleFront.environ "ROLE_MEMBERS_CACHE_SECONDS" = None ->
   Settings.role_members_cache_seconds (Main.settings SampleFront.app) =
   Settings.boosters_cache_seconds (Main.settings SampleFront.app)) /\
  (SampleFront.environ "BOOSTERS_CACHE_SECONDS" = None ->
   Settings.boosters_cache_seconds (Main.settings SampleFront.app) = 300%Z) /\
  (SampleFront.environ "HTTP_PORT" = None ->
   Settings.http_port (Main.settings SampleFront.app) = 8787%Z).
Proof.
  assert (H : @Settings.load_settings SamplePy.py SampleFront.environ =
              inr (Main.settings SampleFront.app)) by (vm_compute; reflexivity).
  split; [exact sample_int_str|]. split; [exact H|].
  exact (@cache_seconds_defaults SamplePy.py sample_int_str _ _ H).
Defined.

(** X14: [main] in the sample environment. *)
Lemma main_wiring_witness :
  @Main.main SamplePy.py SampleFront.environ = inr SampleFront.app /\
  @Settings.load_settings SamplePy.py SampleFront.environ =
    inr (Main.settings SampleFront.app) /\
  api_key (Main.subs SampleFront.app) =
    Settings.admin_lab_api_key (Main.settings SampleFront.app) /\
  api_key (Main.role_members SampleFront.app) =
    Settings.admin_lab_api_key (Main.settings SampleFront.app) /\
  cache_seconds (core (Main.subs SampleFront.app)) =
    Z.max 10 (Settings.boosters_cache_seconds (Main.settings SampleFront.app)) /\
  cache_seconds (core (Main.role_members SampleFront.app)) =
    Z.max 10 (Settings.role_members_cache_seconds (Main.settings SampleFront.app)) /\
  build_timeout_seconds (core (Main.subs SampleFront.app)) = 25%Z /\
  build_timeout_seconds (core (Main.role_members SampleFront.app)) = 25%Z /\
  _cache (core (Main.subs SampleFront.app)) = ∅ /\
  _locks (core (Main.subs SampleFront.app)) = ∅ /\
  _cache (core (Main.role_members SampleFront.app)) = ∅ /\
  _locks (core (Main.role_members SampleFront.app)) = ∅ /\
  Main.api_started SampleFront.app = false /\ Main.api_tasks SampleFront.app = [].
Proof.
  assert (H : @Main.main SamplePy.py SampleFront.environ = inr SampleFront.app)
    by (vm_compute; reflexivity).
  split; [exact H|]. exact (@main_wiring SamplePy.py _ _ H).
Defined.

(** X15: a request without the header, with a good query. *)
Lemma no_header_is_unauthorized_witness :
  @Main.main SamplePy.py SampleFront.environ = inr SampleFront.app /\
  headers (SampleFront.request None (Some "7") (Some "3")) "x-admin-lab-key" = None /\
  @RoleMembersFeature.handler SamplePy.py (Main.role_members SampleFront.app)
    (SampleFront.request None (Some "7") (Some "3")) 0 0 Sample.bot =
    (Main.role_members SampleFront.app,
     Some (inl (HTTPUnauthorized (error_body "unauthorized")))) /\
  @SubscriptionFeature.boosters SamplePy.py (Main.subs SampleFront.app)
    (SampleFront.request None (Some "7") (Some "3")) 0 0 Sample.bot =
    (Main.subs SampleFront.app,
     Some (inl (HTTPUnauthorized (error_body "unauthorized")))).
Proof.
  assert (H : @Main.main SamplePy.py SampleFront.environ = inr SampleFront.app)
    by (vm_compute; reflexivity).
  assert (Hh : headers (SampleFront.request None (Some "7") (Some "3"))
                 "x-admin-lab-key" = None) by reflexivity.
  split; [exact H|]. split; [exact Hh|].
  exact (@no_header_is_unauthorized SamplePy.py _ _ _ 0 0 Sample.bot H Hh).
Defined.

(** X16: the bot becomes ready three times. *)
Lemma api_started_once_witness :
  Main.api_started SampleFront.app = false /\
  Main.api_started (Nat.iter 3 Main.on_ready SampleFront.app) = true /\
  Main.api_tasks (Nat.iter 3 Main.on_ready SampleFront.app) =
    Main.api_tasks SampleFront.app ++
    [(Settings.http_host (Main.settings SampleFront.app),
      Settings.http_port (Main.settings SampleFront.app))] /\
  Main.subs (Nat.iter 3 Main.on_ready SampleFront.app) = Main.subs SampleFront.app /\
  Main.role_members (Nat.iter 3 Main.on_ready SampleFront.app) =
    Main.role_members SampleFront.app /\
  Main.on_ready (Nat.iter 3 Main.on_ready SampleFront.app) =
    Nat.iter 3 Main.on_ready SampleFront.app.
Proof.
  assert (H : Main.api_started SampleFront.app = false) by reflexivity.
  split; [exact H|]. exact (api_started_once SampleFront.app 2 H).
Defined.

(** X17: the entry of [Sample.cached] has expired at 11, and the second read
    is at 12. *)
Lemma recheck_idle_on_monotone_clock_witness :
  (11 <= 12)%Q /\
  cache_hit Sample.cached 11 (_cache Sample.cached !! Sample.key) = None /\
  ~ held Sample.cached Sample.key /\
  exists st' r rest,
    handler Sample.key 11 12 Sample.bot Sample.cached = (st', r) /\
    log st' =
      log Sample.cached ++ Acquire Sample.key :: BuildPayload Sample.key :: rest.
Proof.
  assert (Hle : (11 <= 12)%Q) by (vm_compute; discriminate).
  assert (Hc : cache_hit Sample.cached 11 (_cache Sample.cached !! Sample.key) = None)
    by (vm_compute; reflexivity).
  assert (Hf : ~ held Sample.cached Sample.key) by (vm_compute; discriminate).
  split; [exact Hle|]. split; [exact Hc|]. split; [exact Hf|].
  exact (proj2 (proj2 (recheck_idle_on_monotone_clock Sample.cached Sample.key
                         11 12 Sample.bot Hle)) Hc Hf).
Defined.

(** X18: the build of [Sample.key], whose role the guild knows. *)
Lemma known_role_name_witness :
  step (EvRequest Sample.key 0 0 Sample.bot) Sample.fresh =
    Some (Sample.building_first, None) /\
  Sample.bot 7%Z = Some Sample.guild /\
  Guild.get_role Sample.guild 3%Z = Some Sample.vip /\
  exists st2 st3 p,
    run (map (EvMember (next_task Sample.fresh)) [Sample.alice; Sample.carol; Sample.bob])
      Sample.building_first = Some st2 /\
    step (EvExhausted (next_task Sample.fresh) 3) st2 =
      Some (st3, Some (json_response p)) /\
    _cache st3 !! ((7, 3)%Z : RoleMembers.CacheKey) = Some {| ts := 3; payload := p |} /\
    field "guild_id" p = Some (JStr (pretty (Guild.id Sample.guild))) /\
    field "guild_name" p = Some (JStr (Guild.name Sample.guild)) /\
    field "role_id" p = Some (JStr (pretty 3%Z)) /\
    field "role_name" p = Some (JStr (Role.name Sample.vip)) /\
    field "count" p =
      Some (JInt (Z.of_nat (length
        (RoleMembers.matches 3%Z [Sample.alice; Sample.carol; Sample.bob])))) /\
    field "members" p =
      Some (JList (map (fun mid => JDict [("discord_user_id", JStr mid)])
                     (RoleMembers.matches 3%Z [Sample.alice; Sample.carol; Sample.bob]))).
Proof.
  assert (H1 : step (EvRequest Sample.key 0 0 Sample.bot) Sample.fresh =
    Some (Sample.building_first, None))
    by (apply step_exec; vm_compute; reflexivity).
  split; [exact H1|]. split; [reflexivity|]. split; [reflexivity|].
  exact (known_role_name 7%Z 3%Z 0 0 Sample.bot _ _ Sample.guild Sample.vip
           [Sample.alice; Sample.carol; Sample.bob] 3 H1 eq_refl eq_refl).
Defined.

(** X19: with and without a build for another key in flight. *)
Lemma answer_depends_on_own_key_only_witness :
  cache_seconds Sample.building_first =
    cache_seconds (exec [EvRequest Sample.key_no_role 0 0 Sample.bot]
                     Sample.building_first) /\
  _cache Sample.building_first !! Sample.key =
    _cache (exec [EvRequest Sample.key_no_role 0 0 Sample.bot]
              Sample.building_first) !! Sample.key /\
  (held Sample.building_first Sample.key <->
   held (exec [EvRequest Sample.key_no_role 0 0 Sample.bot] Sample.building_first)
     Sample.key) /\
  snd (handler Sample.key 1 1 Sample.bot Sample.building_first) =
  snd (handler Sample.key 1 1 Sample.bot
         (exec [EvRequest Sample.key_no_role 0 0 Sample.bot] Sample.building_first)).
Proof.
  assert (Hc : cache_seconds Sample.building_first =
    cache_seconds (exec [EvRequest Sample.key_no_role 0 0 Sample.bot]
                     Sample.building_first)) by (vm_compute; reflexivity).
  assert (He : _cache Sample.building_first !! Sample.key =
    _cache (exec [EvRequest Sample.key_no_role 0 0 Sample.bot]
              Sample.building_first) !! Sample.key) by (vm_compute; reflexivity).
  assert (Hh : held Sample.building_first Sample.key <->
    held (exec [EvRequest Sample.key_no_role 0 0 Sample.bot] Sample.building_first)
      Sample.key) by (split; intros _; vm_compute; reflexivity).
  split; [exact Hc|]. split; [exact He|]. split; [exact Hh|].
  exact (answer_depends_on_own_key_only _ _ Sample.key 1 1 Sample.bot Hc He Hh).
Defined.
